(** * A shallow embedding of [scraper.py]: the crawl engine of the site crawler

    The development follows the Python source top to bottom:
    - string helpers standing for the [str] methods the crawler calls;
    - the external collaborators (urllib, requests, BeautifulSoup, the robots
      rule matcher, the clock, time.sleep, sqlite faults) gathered in one
      record [World];
    - [RobotFileParser], as far as [SiteCrawler] uses it;
    - [Database] : the two tables of [_create_schema] with their constraints;
    - [SiteCrawler] : [__init__], [allowed_url] and [crawl], the latter written
      in a small state-and-exception monad;
    - the properties of the crawl loop. *)

From stdpp Require Import gmap strings list fin_maps.
From Stdlib Require Import Ascii ZArith QArith Qcanon Lia.

Set Warnings "-clear-no-such-hyp,-level-tolerance".

Open Scope string_scope.
Open Scope Z_scope.

(** ** String helpers *)

(** [s.rstrip("/")] *)
Fixpoint rstrip_slash (s : string) : string :=
  match s with
  | EmptyString => EmptyString
  | String c s' =>
      match rstrip_slash s' with
      | EmptyString => if Ascii.eqb c "/"%char then EmptyString else String c EmptyString
      | r => String c r
      end
  end.

(** [s.endswith(suffix)]: [s] is [suffix], or its tail ends with [suffix]. *)
Fixpoint endswith (s suffix : string) : bool :=
  String.eqb s suffix
  || match s with
     | EmptyString => false
     | String _ s' => endswith s' suffix
     end.

(** [needle in hay] on strings *)
Fixpoint str_contains (needle hay : string) : bool :=
  String.prefix needle hay
  || match hay with
     | EmptyString => false
     | String _ hay' => str_contains needle hay'
     end.

(** The part of [s] before the first character satisfying [stop], and the
    part from that character on. *)
Fixpoint take_until (stop : ascii -> bool) (s : string) : string :=
  match s with
  | EmptyString => EmptyString
  | String c s' => if stop c then EmptyString else String c (take_until stop s')
  end.

Fixpoint drop_until (stop : ascii -> bool) (s : string) : string :=
  match s with
  | EmptyString => EmptyString
  | String c s' => if stop c then s else drop_until stop s'
  end.

(** [s.split(";")[0]] *)
Definition before_semicolon (s : string) : string :=
  take_until (Ascii.eqb ";"%char) s.

(** ** Exceptions and results *)

(** The exceptions that can leave a method of the crawler.
    [requests.RequestException] is not among them: both places that call
    [session.get] catch it. *)
Inductive exn :=
| ValueError      (* urllib.parse on a malformed URL, time.sleep on a negative
                     or NaN length *)
| IndexError      (* deque.popleft on an empty deque *)
| Sqlite3Error    (* sqlite3.Error and its subclasses, IntegrityError among them *)
| ParserRejectedMarkup   (* bs4: html.parser gave up on the markup *)
| OverflowError.  (* time.sleep on a length its clock cannot hold *)

Inductive result (A : Type) :=
| Ok (a : A)
| Raise (e : exn).
Arguments Ok {A} a.
Arguments Raise {A} e.

(** [None] from a urllib function stands for its [ValueError]. *)
Definition or_value_error {A : Type} (o : option A) : result A :=
  match o with
  | Some a => Ok a
  | None => Raise ValueError
  end.

(** ** The external collaborators *)

(** The two attributes of [urlparse(url)] the crawler reads. *)
Record ParseResult := {
  scheme : string;
  netloc : string
}.

(** What the crawler reads of a [requests.Response]. *)
Record Response := {
  resp_status_code : Z;
  resp_content_type : option string;   (* headers.get("Content-Type") *)
  resp_text : string
}.

(** [response.headers.get("Content-Type", "").split(";")[0]] *)
Definition content_type_of (r : Response) : string :=
  before_semicolon (default "" (resp_content_type r)).

(** [response.ok]: [raise_for_status()] does not raise, that is, the status
    code is not in 400..599. *)
Definition resp_ok (r : Response) : bool :=
  negb ((400 <=? resp_status_code r) && (resp_status_code r <? 600)).

(** A Python float: a finite value, an infinity or NaN.  [float], the
    converter of [--delay] and [--timeout], accepts "inf" and "nan". *)
Inductive PyFloat :=
| Finite (q : Qc)
| PosInf
| NegInf
| NaN.

(** [bool(x)]: only zero is false. *)
Definition float_truthy (x : PyFloat) : bool :=
  match x with
  | Finite q => negb (bool_decide (q = 0%Qc))
  | PosInf | NegInf | NaN => true
  end.

(** How [time.sleep(x)] ends: it returns, or raises ValueError (a negative
    length, NaN) or OverflowError (an infinity, or a length too large for
    the clock). *)
Inductive SleepOutcome :=
| Slept
| SleepValueError
| SleepOverflowError.

(** [session.get(url, timeout=...)] either returns or raises a
    [requests.RequestException]. *)
Inductive FetchOutcome :=
| Returned (r : Response)
| RequestException.

(** Everything the crawler calls but does not define.  Answers that depend on
    the outside world (network, clock, disk) are indexed by a tick, the number
    of external calls made before this one, so that the same request may be
    answered differently at different times. *)
Record World := {
  (* urllib.parse; [None] is ValueError *)
  urlparse : string -> option ParseResult;
  urldefrag : string -> option string;              (* urldefrag(url).url *)
  urljoin : string -> string -> option string;
  (* requests *)
  session_get : nat -> string -> FetchOutcome;
  (* BeautifulSoup(body, "html.parser") raises ParserRejectedMarkup *)
  parser_rejects : string -> bool;
  (* BeautifulSoup on the body of a response *)
  soup_title : string -> option string;   (* soup.title.string, when both are truthy *)
  str_strip : string -> string;
  extract_text : string -> string;        (* SiteCrawler._extract_text(soup) *)
  find_all_a_href : string -> list string;
      (* [link["href"] for link in soup.find_all("a", href=True)], in document
         order, on the soup that _extract_text has already pruned *)
  (* urllib.robotparser: the rule matching of can_fetch once the guards on
     disallow_all, allow_all and last_checked are passed; arguments are the
     text that was parsed, the agent and the URL; [None] is ValueError *)
  rules_can_fetch : string -> string -> string -> option bool;
  (* datetime.utcnow().isoformat(timespec="seconds") + "Z" *)
  utcnow : nat -> string;
  (* time.sleep *)
  time_sleep : PyFloat -> SleepOutcome;
  (* whether the sqlite call made at this tick fails for a reason outside the
     program (disk full, database locked, ...) *)
  sqlite_fault : nat -> bool
}.

(** ** urllib.robotparser.RobotFileParser *)

Record RobotFileParser := {
  disallow_all : bool;
  allow_all : bool;
  last_checked : nat;     (* 0 until modified() is called *)
  rp_text : string        (* the robots.txt whose lines were given to parse() *)
}.

(** [RobotFileParser()] *)
Definition RobotFileParser_new : RobotFileParser :=
  {| disallow_all := false; allow_all := false; last_checked := 0; rp_text := "" |}.

(** [parse(lines)]: the first thing parse does is [self.modified()], which
    stores the current time, a non-zero number. *)
Definition RobotFileParser_parse (rp : RobotFileParser) (text : string) (tick : nat)
  : RobotFileParser :=
  {| disallow_all := disallow_all rp; allow_all := allow_all rp;
     last_checked := S tick; rp_text := text |}.

(** [can_fetch(useragent, url)] *)
Definition can_fetch (W : World) (rp : RobotFileParser) (useragent url : string)
  : result bool :=
  if disallow_all rp then Ok false
  else if allow_all rp then Ok true
  else if (last_checked rp =? 0)%nat then Ok false
  else or_value_error (rules_can_fetch W (rp_text rp) useragent url).

(** ** Database *)

(** A row of table [pages] without its surrogate [id], which nothing reads. *)
Record PageRow := {
  row_url : string;
  row_status_code : option Z;
  row_content_type : option string;
  row_title : option string;
  row_text_content : option string;
  row_fetched_at : string
}.

(** The two tables.  [pages.url] is UNIQUE, so the table is a map keyed by it;
    [links] has no uniqueness constraint and is a list of rows in insertion
    order. *)
Record Database := {
  pages : gmap string PageRow;
  links : list (string * string)
}.

(** A database file that did not exist before [Database(path)]. *)
Definition Database_fresh : Database := {| pages := ∅; links := [] |}.

(** [upsert_page]: INSERT ... ON CONFLICT(url) DO UPDATE, in one transaction. *)
Definition upsert_page (W : World) (db : Database) (tick : nat) (url : string)
    (status_code : option Z) (content_type title text_content : option string)
  : result Database :=
  let fetched_at := utcnow W tick in
  if sqlite_fault W tick then Raise Sqlite3Error
  else Ok {| pages := <[url := {| row_url := url; row_status_code := status_code;
                                  row_content_type := content_type; row_title := title;
                                  row_text_content := text_content;
                                  row_fetched_at := fetched_at |}]> (pages db);
             links := links db |}.

(** The foreign keys of [links] ([PRAGMA foreign_keys=ON]): both ends of a new
    row must be the url of an existing page. *)
Definition foreign_keys_ok (db : Database) (from_url to_url : string) : bool :=
  bool_decide (is_Some (pages db !! from_url))
  && bool_decide (is_Some (pages db !! to_url)).

(** [insert_links]: executemany inside [with self.conn], so either every row
    is inserted or, on the first failing row, the transaction is rolled back
    and the error is raised. *)
Definition insert_links (W : World) (db : Database) (tick : nat) (from_url : string)
    (to_urls : list string) : result Database :=
  if sqlite_fault W tick then Raise Sqlite3Error
  else if forallb (foreign_keys_ok db from_url) to_urls
       then Ok {| pages := pages db;
                  links := links db ++ map (fun u => (from_url, u)) to_urls |}
       else Raise Sqlite3Error.

(** ** SiteCrawler *)

(** The attributes set by [__init__].  [user_agent] is
    [session.headers.get("User-Agent", "*")]. *)
Record SiteCrawler := {
  base_url : string;
  parsed_base : ParseResult;
  max_pages : Z;
  delay : PyFloat;
  timeout : PyFloat;
  include_subdomains : bool;
  user_agent : string;
  robot_parser : option RobotFileParser
}.

(** [SiteCrawler.__init__], started at tick [tick]; returns the crawler and
    the tick after it.  The [RequestException] of the robots request is
    suppressed, and a response that is not ok is not parsed: in both cases the
    parser stays as [RobotFileParser()] made it. *)
Definition SiteCrawler_init (W : World) (tick : nat) (url : string) (max_pages : Z)
    (delay timeout : PyFloat) (include_subdomains respect_robots : bool)
    (user_agent : string) : result (SiteCrawler * nat) :=
  let base := rstrip_slash url in
  match urlparse W base with
  | None => Raise ValueError
  | Some parsed =>
      let make rp :=
        {| base_url := base; parsed_base := parsed; max_pages := max_pages;
           delay := delay; timeout := timeout;
           include_subdomains := include_subdomains; user_agent := user_agent;
           robot_parser := rp |} in
      if respect_robots then
        match urljoin W base "/robots.txt" with
        | None => Raise ValueError
        | Some robots_url =>
            let rp :=
              match session_get W tick robots_url with
              | Returned response =>
                  if resp_ok response
                  then RobotFileParser_parse RobotFileParser_new (resp_text response) tick
                  else RobotFileParser_new
              | RequestException => RobotFileParser_new
              end in
            Ok (make (Some rp), S tick)
        end
      else Ok (make None, tick)
  end.

(** [parsed.scheme not in {"http", "https"}] *)
Definition scheme_not_web (parsed : ParseResult) : bool :=
  negb (String.eqb (scheme parsed) "http" || String.eqb (scheme parsed) "https").

(** The host test of [allowed_url]: true when the URL is rejected. *)
Definition host_rejected (self : SiteCrawler) (parsed : ParseResult) : bool :=
  if include_subdomains self
  then negb (endswith (netloc parsed) (netloc (parsed_base self)))
  else negb (String.eqb (netloc parsed) (netloc (parsed_base self))).

(** [SiteCrawler.allowed_url] *)
Definition allowed_url (W : World) (self : SiteCrawler) (url : string) : result bool :=
  match urlparse W url with
  | None => Raise ValueError
  | Some parsed =>
      if scheme_not_web parsed then Ok false
      else if String.eqb (netloc parsed) "" then Ok false
      else if host_rejected self parsed then Ok false
      else
        match robot_parser self with
        | None => Ok true
        | Some rp =>
            match can_fetch W rp (user_agent self) url with
            | Raise e => Raise e
            | Ok false => Ok false        (* "Blocked by robots.txt" *)
            | Ok true => Ok true
            end
        end
  end.

(** *** The state of a run of [crawl] *)

(** A call of the crawler on the database object.  [insert_links] receives
    the set [links_to_store]; the list here is the order in which the set is
    iterated, which Python leaves unspecified: statements about a batch are
    up to permutation. *)
Inductive SinkCall :=
| UpsertPage (url : string) (status_code : option Z)
             (content_type title text_content : option string)
| InsertLinks (from_url : string) (to_urls : list string).

(** [queue], [visited] and [db] are the objects [crawl] mutates; [tick] counts
    the external calls of the process so far.  The last two fields are
    observations kept for the statements: the URLs passed to [session.get] by
    the loop, oldest first, and the calls made on the database, each with
    whether it returned ([true]) or raised ([false]). *)
Record State := {
  queue : list string;
  visited : gset string;
  db : Database;
  tick : nat;
  fetched : list string;
  emitted : list (SinkCall * bool)
}.

(** *** A state-and-exception monad for the loop body *)

Definition M (A : Type) : Type := State -> result A * State.

Definition ret {A : Type} (a : A) : M A := fun s => (Ok a, s).

Definition raise {A : Type} (e : exn) : M A := fun s => (Raise e, s).

Definition bind {A B : Type} (m : M A) (k : A -> M B) : M B :=
  fun s =>
    match m s with
    | (Ok a, s') => k a s'
    | (Raise e, s') => (Raise e, s')
    end.

(** stdpp's notations [x ← m; k] and [m ;; k] for the monad. *)
#[global] Instance M_ret : MRet M := @ret.
#[global] Instance M_bind : MBind M := fun A B k m => bind m k.

(** A pure computation that may raise. *)
Definition lift {A : Type} (r : result A) : M A := fun s => (r, s).

Section Crawl.

Context (W : World).

(** [queue.popleft()] *)
Definition popleft : M string :=
  fun s =>
    match queue s with
    | [] => (Raise IndexError, s)
    | url :: rest =>
        (Ok url, {| queue := rest; visited := visited s; db := db s; tick := tick s;
                    fetched := fetched s; emitted := emitted s |})
    end.

(** [queue.append(url)] *)
Definition queue_append (url : string) : M unit :=
  fun s =>
    (Ok tt, {| queue := queue s ++ [url]; visited := visited s; db := db s;
               tick := tick s; fetched := fetched s; emitted := emitted s |}).

Definition get_visited : M (gset string) := fun s => (Ok (visited s), s).

Definition get_queue : M (list string) := fun s => (Ok (queue s), s).

(** [visited.add(url)] *)
Definition visited_add (url : string) : M unit :=
  fun s =>
    (Ok tt, {| queue := queue s; visited := {[url]} ∪ visited s; db := db s;
               tick := tick s; fetched := fetched s; emitted := emitted s |}).

(** [self.session.get(url, timeout=self.timeout)] inside the [try]: the
    exception is returned as a value because [crawl] catches it. *)
Definition do_get (url : string) : M FetchOutcome :=
  fun s =>
    (Ok (session_get W (tick s) url),
     {| queue := queue s; visited := visited s; db := db s; tick := S (tick s);
        fetched := fetched s ++ [url]; emitted := emitted s |}).

(** A call on [self.db]: the database changes only if the call returns. *)
Definition db_call (c : SinkCall) : M unit :=
  fun s =>
    let r :=
      match c with
      | UpsertPage url status_code content_type title text_content =>
          upsert_page W (db s) (tick s) url status_code content_type title text_content
      | InsertLinks from_url to_urls =>
          insert_links W (db s) (tick s) from_url to_urls
      end in
    match r with
    | Ok db' =>
        (Ok tt, {| queue := queue s; visited := visited s; db := db'; tick := S (tick s);
                   fetched := fetched s; emitted := emitted s ++ [(c, true)] |})
    | Raise e =>
        (Raise e, {| queue := queue s; visited := visited s; db := db s;
                     tick := S (tick s); fetched := fetched s;
                     emitted := emitted s ++ [(c, false)] |})
    end.

(** The [for link in soup.find_all("a", href=True)] loop; [links_to_store] is
    the local set, the queue is the shared deque. *)
Fixpoint scan_links (self : SiteCrawler) (url : string) (hrefs : list string)
    (links_to_store : gset string) : M (gset string) :=
  match hrefs with
  | [] => ret links_to_store
  | href :: rest =>
      next_url ← lift (or_value_error (urljoin W url href));
      next_url ← lift (or_value_error (urldefrag W next_url));
      allowed ← lift (allowed_url W self next_url);
      visited ← get_visited;
      if allowed && negb (bool_decide (next_url ∈ visited))
      then queue_append next_url;;
           scan_links self url rest ({[next_url]} ∪ links_to_store)
      else scan_links self url rest links_to_store
  end.

(** [soup.title.string.strip() if soup.title and soup.title.string else None] *)
Definition page_title (body : string) : option string :=
  match soup_title W body with
  | Some s => Some (str_strip W s)
  | None => None
  end.

(** [BeautifulSoup(response.text, "html.parser")] *)
Definition make_soup (body : string) : M unit :=
  if parser_rejects W body then raise ParserRejectedMarkup else ret tt.

(** [if queue and self.delay: time.sleep(self.delay)] *)
Definition pace (self : SiteCrawler) : M unit :=
  queue ← get_queue;
  if negb (bool_decide (queue = [])) && float_truthy (delay self)
  then match time_sleep W (delay self) with
       | Slept => ret tt
       | SleepValueError => raise ValueError
       | SleepOverflowError => raise OverflowError
       end
  else ret tt.

(** One iteration of the [while] loop of [crawl].  Returning [tt] early is
    the [continue] of the source. *)
Definition crawl_body (self : SiteCrawler) : M unit :=
  url ← popleft;
  url ← lift (or_value_error (urldefrag W url));
  visited ← get_visited;
  if bool_decide (url ∈ visited) then ret tt
  else
    allowed ← lift (allowed_url W self url);
    if negb allowed then ret tt
    else
      visited_add url;;
      outcome ← do_get url;
      match outcome with
      | RequestException => db_call (UpsertPage url None None None None)
      | Returned response =>
          let content_type := content_type_of response in
          page ←
            (if str_contains "text/html" content_type
             then make_soup (resp_text response);;
                  links_to_store ← scan_links self url
                                       (find_all_a_href W (resp_text response)) ∅;
                  ret (page_title (resp_text response),
                       Some (extract_text W (resp_text response)),
                       links_to_store)
             else ret (None, None, ∅));
          let '(title, text_content, links_to_store) := page in
          db_call (UpsertPage url (Some (resp_status_code response))
                     (Some content_type) title text_content);;
          (if bool_decide (links_to_store = ∅) then ret tt
           else db_call (InsertLinks url (elements links_to_store)));;
          pace self
      end.

(** [while queue and len(visited) < self.max_pages] *)
Definition loop_cond (self : SiteCrawler) (s : State) : bool :=
  negb (bool_decide (queue s = []))
  && (Z.of_nat (size (visited s)) <? max_pages self).

(** How far a run has come. *)
Inductive Status :=
| Running            (* the loop condition still holds *)
| Done               (* the loop condition failed: crawl returns *)
| Raised (e : exn).  (* an exception left crawl *)

(** The [while] loop, unrolled at most [fuel] times. *)
Fixpoint crawl_loop (self : SiteCrawler) (fuel : nat) (s : State) : Status * State :=
  if loop_cond self s then
    match fuel with
    | O => (Running, s)
    | S fuel' =>
        match crawl_body self s with
        | (Ok _, s') => crawl_loop self fuel' s'
        | (Raise e, s') => (Raised e, s')
        end
    end
  else (Done, s).

(** The state at the [while]: [queue = deque([self.base_url])],
    [visited = set()]. *)
Definition initial_state (self : SiteCrawler) (db : Database) (tick : nat) : State :=
  {| queue := [base_url self]; visited := ∅; db := db; tick := tick;
     fetched := []; emitted := [] |}.

(** [SiteCrawler.crawl] on database [db], started at tick [tick]. *)
Definition crawl (self : SiteCrawler) (db : Database) (tick : nat) (fuel : nat)
  : Status * State :=
  crawl_loop self fuel (initial_state self db tick).

End Crawl.

(** ** Observations on a run, and the predicates of the statements *)

(** The URLs of the page records handed to the database, oldest first. *)
Definition page_records (calls : list (SinkCall * bool)) : list string :=
  flat_map (fun c => match fst c with
                     | UpsertPage url _ _ _ _ => [url]
                     | InsertLinks _ _ => []
                     end) calls.

(** The link edges handed to the database, oldest first. *)
Definition link_edges (calls : list (SinkCall * bool)) : list (string * string) :=
  flat_map (fun c => match fst c with
                     | UpsertPage _ _ _ _ _ => []
                     | InsertLinks from_url to_urls => map (pair from_url) to_urls
                     end) calls.

(** The scheme and host tests of [allowed_url], as a proposition: a web
    scheme, a netloc, and a netloc that ends with the base netloc (subdomains
    included) or equals it (subdomains excluded). *)
Definition in_scope (W : World) (self : SiteCrawler) (url : string) : Prop :=
  exists parsed,
    urlparse W url = Some parsed
    /\ (scheme parsed = "http" \/ scheme parsed = "https")
    /\ netloc parsed <> ""
    /\ if include_subdomains self
       then exists prefix, netloc parsed = prefix ++ netloc (parsed_base self)
       else netloc parsed = netloc (parsed_base self).

(** [next_url] is enqueued when the HTML page [response] fetched from [url]
    is scanned: it is the joined, fragment-stripped target of one of its
    anchors and it is allowed. *)
Definition link_target (W : World) (self : SiteCrawler) (url : string)
    (response : Response) (next_url : string) : Prop :=
  str_contains "text/html" (content_type_of response) = true
  /\ exists href joined,
       href ∈ find_all_a_href W (resp_text response)
       /\ urljoin W url href = Some joined
       /\ urldefrag W joined = Some next_url
       /\ allowed_url W self next_url = Ok true.

(** The eligible URLs reachable from the seed: the fragment-stripped seed, and
    the fragment-stripped link targets of reachable pages, when allowed. *)
Inductive reachable (W : World) (self : SiteCrawler) : string -> Prop :=
| reach_seed url :
    urldefrag W (base_url self) = Some url ->
    allowed_url W self url = Ok true ->
    reachable W self url
| reach_link url t response next_url url' :
    reachable W self url ->
    session_get W t url = Returned response ->
    link_target W self url response next_url ->
    urldefrag W next_url = Some url' ->
    allowed_url W self url' = Ok true ->
    reachable W self url'.

(** What is in the deque: the seed, or a link target of a reachable page. *)
Definition discovered (W : World) (self : SiteCrawler) (q : string) : Prop :=
  q = base_url self
  \/ exists url t response,
       reachable W self url
       /\ session_get W t url = Returned response
       /\ link_target W self url response q.

(** How the pause at the end of an iteration can end. *)
Definition paced (r : result unit) : Prop :=
  r = Ok tt \/ r = Raise ValueError \/ r = Raise OverflowError.

(** The database calls of one iteration that fetched [url] with outcome
    [outcome] and enqueued [added], and the result [r] of the iteration. *)
Definition calls_of_page (W : World) (self : SiteCrawler) (url : string)
    (outcome : FetchOutcome) (added : list string) (r : result unit)
    (calls : list (SinkCall * bool)) : Prop :=
  match outcome with
  | RequestException =>
      added = []
      /\ exists ok, calls = [(UpsertPage url None None None None, ok)]
                   /\ r = (if ok then Ok tt else Raise Sqlite3Error)
  | Returned response =>
      Forall (link_target W self url response) added
      /\ ((calls = [] /\ (r = Raise ValueError \/ r = Raise ParserRejectedMarkup))
          \/ exists title text_content,
               let page := UpsertPage url (Some (resp_status_code response))
                             (Some (content_type_of response)) title text_content in
               (calls = [(page, false)] /\ r = Raise Sqlite3Error)
               \/ (calls = [(page, true)] /\ added = [] /\ paced r)
               \/ (exists ok,
                     calls = [(page, true);
                              (InsertLinks url (elements (list_to_set added : gset string)), ok)]
                     /\ added <> []
                     /\ if ok then paced r else r = Raise Sqlite3Error))
  end.

(** Why an iteration fetches nothing: the deque is empty, the head cannot be
    parsed, it was visited already, or it is not allowed. *)
Definition skipped (W : World) (self : SiteCrawler) (s : State) (r : result unit)
  : Prop :=
  match queue s with
  | [] => r = Raise IndexError
  | url0 :: _ =>
      match urldefrag W url0 with
      | None => r = Raise ValueError
      | Some url =>
          (url ∈ visited s /\ r = Ok tt)
          \/ (url ∉ visited s /\ allowed_url W self url = Ok false /\ r = Ok tt)
          \/ (url ∉ visited s /\ allowed_url W self url = Raise ValueError
              /\ r = Raise ValueError)
      end
  end.

(** One iteration of the loop, from [s] to [s'] with result [r]: either
    nothing is fetched and only the head of the deque goes, or the head is
    marked visited and fetched. *)
Inductive iteration (W : World) (self : SiteCrawler) (s : State) (r : result unit)
    (s' : State) : Prop :=
| iteration_skip :
    queue s' = tail (queue s) ->
    visited s' = visited s ->
    db s' = db s ->
    tick s' = tick s ->
    fetched s' = fetched s ->
    emitted s' = emitted s ->
    skipped W self s r ->
    iteration W self s r s'
| iteration_fetch url0 rest url added calls :
    queue s = url0 :: rest ->
    urldefrag W url0 = Some url ->
    url ∉ visited s ->
    allowed_url W self url = Ok true ->
    visited s' = {[url]} ∪ visited s ->
    fetched s' = (fetched s ++ [url])%list ->
    queue s' = (rest ++ added)%list ->
    Forall (fun u => u ∉ visited s') added ->
    emitted s' = (emitted s ++ calls)%list ->
    calls_of_page W self url (session_get W (tick s) url) added r calls ->
    iteration W self s r s'.

(** *** Invariants of the loop *)

(** The visited set is the set of the URLs fetched so far; each was fetched
    once, was allowed, and came out of [urldefrag]. *)
Record fetch_invariant (W : World) (self : SiteCrawler) (s : State) : Prop := {
  inv_visited : visited s = list_to_set (fetched s);
  inv_nodup : NoDup (fetched s);
  inv_allowed : Forall (fun u => allowed_url W self u = Ok true) (fetched s);
  inv_defrag : Forall (fun u => exists u0, urldefrag W u0 = Some u) (fetched s)
}.

(** A database call is about a page that was fetched; a batch of links is
    not empty, has no target twice, and all its targets are allowed. *)
Definition call_invariant (W : World) (self : SiteCrawler) (s : State)
    (c : SinkCall * bool) : Prop :=
  match fst c with
  | UpsertPage url _ _ _ _ => url ∈ fetched s
  | InsertLinks from_url to_urls =>
      from_url ∈ fetched s
      /\ NoDup to_urls
      /\ to_urls <> []
      /\ Forall (fun u => allowed_url W self u = Ok true) to_urls
  end.

(** Every fetched URL is reachable and every queued URL was discovered. *)
Definition reach_invariant (W : World) (self : SiteCrawler) (s : State) : Prop :=
  Forall (reachable W self) (fetched s) /\ Forall (discovered W self) (queue s).

(** Unfolding the monad. *)
Ltac unfold_monad :=
  unfold mbind, M_bind, bind, mret, M_ret, ret, lift, raise, get_visited,
    get_queue, visited_add, queue_append, popleft, do_get, make_soup in *;
  simpl in *.

(** *** The database as the calls leave it *)

(** The database operation behind a call. *)
Definition run_call (W : World) (db : Database) (tick : nat) (c : SinkCall)
  : result Database :=
  match c with
  | UpsertPage url status_code content_type title text_content =>
      upsert_page W db tick url status_code content_type title text_content
  | InsertLinks from_url to_urls => insert_links W db tick from_url to_urls
  end.

(** [db'] is [db] after the calls [calls], made one after the other from
    tick [tick] on, each recorded with whether it returned; a call that
    raises is the last one and leaves the database as it was. *)
Fixpoint db_replay (W : World) (db : Database) (tick : nat)
    (calls : list (SinkCall * bool)) (db' : Database) : Prop :=
  match calls with
  | [] => db' = db
  | (c, ok) :: rest =>
      match run_call W db tick c with
      | Ok db1 => ok = true /\ db_replay W db1 (S tick) rest db'
      | Raise _ => ok = false /\ rest = [] /\ db' = db
      end
  end.

(** The edges of the batches whose call returned. *)
Definition stored_edges (calls : list (SinkCall * bool)) : list (string * string) :=
  link_edges (filter (fun c => snd c = true) calls).

(** The foreign keys of table [links]: both ends of every row are the url of
    a row of [pages]. *)
Definition foreign_keys_hold (db : Database) : Prop :=
  Forall (fun row => is_Some (pages db !! fst row) /\ is_Some (pages db !! snd row))
         (links db).

(** Where a call comes from.  A page record is that of a request that raised,
    all four optional fields absent, or that of a response: status code and
    content type present, title and text only if the content type says HTML.
    A batch of links comes from an HTML response; its targets are link
    targets of that page, and the page is not among them. *)
Definition call_of_fetch (W : World) (self : SiteCrawler) (c : SinkCall * bool)
  : Prop :=
  match fst c with
  | UpsertPage url status_code content_type title text_content =>
      (exists t, session_get W t url = RequestException
                 /\ status_code = None /\ content_type = None
                 /\ title = None /\ text_content = None)
      \/ (exists t response,
            session_get W t url = Returned response
            /\ status_code = Some (resp_status_code response)
            /\ content_type = Some (content_type_of response)
            /\ if str_contains "text/html" (content_type_of response)
               then title = page_title W (resp_text response)
                    /\ text_content = Some (extract_text W (resp_text response))
               else title = None /\ text_content = None)
  | InsertLinks from_url to_urls =>
      (exists t response,
         session_get W t from_url = Returned response
         /\ str_contains "text/html" (content_type_of response) = true
         /\ Forall (link_target W self from_url response) to_urls)
      /\ from_url ∉ to_urls
  end.

(** ** main *)

(** The namespace that [parse_args] returns. *)
Record Args := {
  arg_url : string;
  arg_db_path : string;
  arg_max_pages : Z;
  arg_delay : PyFloat;
  arg_timeout : PyFloat;
  arg_include_subdomains : bool;
  arg_respect_robots : bool;
  arg_verbose : bool
}.

(** [DEFAULT_HEADERS["User-Agent"]], the agent of a crawler made without
    [headers]. *)
Definition DEFAULT_USER_AGENT : string :=
  "Mozilla/5.0 (compatible; SiteCrawler/1.0; +https://example.com/bot)".

(** The [Database] object of [main]: the tables, and whether [close] was
    called. *)
Record Connection := {
  conn_db : Database;
  conn_closed : bool
}.

(** [main] once the arguments are parsed, on the database [file] found at
    [args.db_path] (with its tables, new or old).  The crawler is constructed
    before the [try]: an exception of [__init__] leaves [main] with the
    connection open.  [crawl] runs inside [try ... finally: db.close()].
    [Done] stands for [return 0]. *)
Definition main (W : World) (args : Args) (file : Database) (tick fuel : nat)
  : Status * Connection :=
  match SiteCrawler_init W tick (arg_url args) (arg_max_pages args) (arg_delay args)
          (arg_timeout args) (arg_include_subdomains args) (arg_respect_robots args)
          DEFAULT_USER_AGENT with
  | Raise e => (Raised e, {| conn_db := file; conn_closed := false |})
  | Ok (crawler, tick') =>
      match crawl W crawler file tick' fuel with
      | (Running, s') => (Running, {| conn_db := db s'; conn_closed := false |})
      | (Done, s') => (Done, {| conn_db := db s'; conn_closed := true |})
      | (Raised e, s') => (Raised e, {| conn_db := db s'; conn_closed := true |})
      end
  end.

(** ** A sample world

    A small model of urllib.parse and a five-page site, used to run the
    crawler on concrete inputs.  The URL functions agree with urllib on
    lower-case URLs of the shape scheme://netloc/path?query#fragment and on
    references that are absolute, rooted ("/about"), fragment-only or
    relative paths without dot segments. *)

Module Sample.

Definition is_delim (c : ascii) : bool :=
  Ascii.eqb c "/"%char || Ascii.eqb c "?"%char || Ascii.eqb c "#"%char.

Definition is_colon_or_delim (c : ascii) : bool :=
  Ascii.eqb c ":"%char || is_delim c.

Definition string_drop (n : nat) (s : string) : string :=
  String.substring n (String.length s - n) s.

(** The scheme of a URL ("" if none) and what follows its colon. *)
Definition split_scheme (url : string) : string * string :=
  let sch := take_until is_colon_or_delim url in
  match sch, drop_until is_colon_or_delim url with
  | String _ _, String ":"%char rest => (sch, rest)
  | _, _ => (EmptyString, url)
  end.

(** The netloc of what follows the scheme ("" if it does not start with
    two slashes) and the rest, which starts with the path. *)
Definition split_netloc (rest : string) : string * string :=
  if String.prefix "//" rest
  then (take_until is_delim (string_drop 2 rest),
        drop_until is_delim (string_drop 2 rest))
  else (EmptyString, rest).

(** urlsplit raises "Invalid IPv6 URL" on a netloc with one bracket only. *)
Definition invalid_ipv6 (nl : string) : bool :=
  xorb (str_contains "[" nl) (str_contains "]" nl).

Definition url_parse (url : string) : option ParseResult :=
  let '(sch, rest) := split_scheme url in
  let '(nl, _) := split_netloc rest in
  if invalid_ipv6 nl then None else Some {| scheme := sch; netloc := nl |}.

Definition url_defrag (url : string) : option string :=
  match url_parse url with
  | None => None
  | Some _ => Some (take_until (Ascii.eqb "#"%char) url)
  end.

(** The path of [s] up to and including its last slash. *)
Fixpoint dirname (s : string) : string :=
  match s with
  | EmptyString => EmptyString
  | String c s' =>
      match dirname s' with
      | EmptyString => if Ascii.eqb c "/"%char then String c EmptyString else EmptyString
      | d => String c d
      end
  end.

Definition url_join (base url : string) : option string :=
  if String.eqb url "" then Some base
  else
    match url_parse base, url_parse url with
    | Some pb, Some pu =>
        let origin := scheme pb ++ "://" ++ netloc pb in
        let bpath :=
          take_until (fun c => Ascii.eqb c "?"%char || Ascii.eqb c "#"%char)
            (snd (split_netloc (snd (split_scheme base)))) in
        if negb (String.eqb (scheme pu) "") then Some url
        else if String.prefix "//" url then Some (scheme pb ++ ":" ++ url)
        else if String.prefix "/" url then Some (origin ++ url)
        else if String.prefix "#" url
             then Some (take_until (Ascii.eqb "#"%char) base ++ url)
        else Some (origin
                   ++ (if String.eqb (dirname bpath) "" then "/" else dirname bpath)
                   ++ url)
    | _, _ => None
    end.

(** The pages of the sample site. *)
Definition home_html : string :=
  "<title> Home </title><a href=/about>About</a><a href=https://other.org/x>Other</a><a href=/about#team>Team</a><a href=/files/report.pdf>Report</a>".
Definition about_html : string :=
  "<title>About</title><a href=/>Home</a><a href=/about>Here</a><a href=/contact>Contact</a>".
Definition missing_html : string := "<h1>Not found</h1>".

Definition html (status : Z) (body : string) : FetchOutcome :=
  Returned {| resp_status_code := status;
              resp_content_type := Some "text/html; charset=utf-8";
              resp_text := body |}.

(** The site answers the same at all times; /contact times out. *)
Definition site (url : string) : FetchOutcome :=
  if String.eqb url "https://example.com" then html 200 home_html
  else if String.eqb url "https://example.com/" then html 200 home_html
  else if String.eqb url "https://example.com/about" then html 200 about_html
  else if String.eqb url "https://example.com/files/report.pdf"
       then Returned {| resp_status_code := 200;
                        resp_content_type := Some "application/pdf";
                        resp_text := "%PDF-1.7" |}
  else if String.eqb url "https://example.com/contact" then RequestException
  else html 404 missing_html.

Definition hrefs_of (body : string) : list string :=
  if String.eqb body home_html
  then ["/about"; "https://other.org/x"; "/about#team"; "/files/report.pdf"]
  else if String.eqb body about_html then ["/"; "/about"; "/contact"]
  else [].

Definition title_of (body : string) : option string :=
  if String.eqb body home_html then Some " Home "
  else if String.eqb body about_html then Some "About"
  else None.

Definition strip_of (s : string) : string :=
  if String.eqb s " Home " then "Home" else s.

(** [time.sleep] on a clock that holds 2^63 nanoseconds. *)
Definition sleep (x : PyFloat) : SleepOutcome :=
  match x with
  | NaN => SleepValueError
  | PosInf | NegInf => SleepOverflowError
  | Finite q =>
      if bool_decide (Qc_of_Z 9223372036 < q)%Qc
         || bool_decide (q < Qc_of_Z (-9223372036))%Qc
      then SleepOverflowError
      else if bool_decide (q < 0)%Qc then SleepValueError else Slept
  end.

(** The sample world; [faults] tells which sqlite calls fail from outside. *)
Definition world (faults : nat -> bool) : World :=
  {| urlparse := url_parse;
     urldefrag := url_defrag;
     urljoin := url_join;
     session_get := fun _ url => site url;
     parser_rejects := fun _ => false;
     soup_title := title_of;
     str_strip := strip_of;
     extract_text := fun body => body;
     find_all_a_href := hrefs_of;
     rules_can_fetch := fun _ _ _ => Some true;
     utcnow := fun _ => "2024-01-01T00:00:00Z";
     time_sleep := sleep;
     sqlite_fault := faults |}.

Definition no_faults : nat -> bool := fun _ => false.

(** A crawler on https://example.com without robots enforcement. *)
Definition crawler (budget : Z) (subdomains : bool) : SiteCrawler :=
  {| base_url := "https://example.com";
     parsed_base := {| scheme := "https"; netloc := "example.com" |};
     max_pages := budget; delay := Finite 0; timeout := Finite (Qc_of_Z 10);
     include_subdomains := subdomains;
     user_agent := "Mozilla/5.0 (compatible; SiteCrawler/1.0; +https://example.com/bot)";
     robot_parser := None |}.

(** The same crawler as [__init__] makes it when robots enforcement is on. *)
Definition crawler_with_robots : result (SiteCrawler * nat) :=
  SiteCrawler_init (world no_faults) 0 "https://example.com/" 10 (Finite 0) (Finite (Qc_of_Z 10))
    false true "SiteCrawler".

(** A crawler whose seed is not a web URL. *)
Definition ftp_crawler : SiteCrawler :=
  {| base_url := "ftp://example.com";
     parsed_base := {| scheme := "ftp"; netloc := "example.com" |};
     max_pages := 10; delay := Finite 0; timeout := Finite (Qc_of_Z 10);
     include_subdomains := false; user_agent := "SiteCrawler";
     robot_parser := None |}.

(** A crawler seeded on the PDF, a page without links. *)
Definition pdf_crawler (budget : Z) : SiteCrawler :=
  {| base_url := "https://example.com/files/report.pdf";
     parsed_base := {| scheme := "https"; netloc := "example.com" |};
     max_pages := budget; delay := Finite 0; timeout := Finite (Qc_of_Z 10);
     include_subdomains := false; user_agent := "SiteCrawler";
     robot_parser := None |}.

Definition old_row (url : string) : string * PageRow :=
  (url, {| row_url := url; row_status_code := Some 200;
           row_content_type := Some "text/html"; row_title := None;
           row_text_content := None; row_fetched_at := "2023-12-31T00:00:00Z" |}).

(** The database file left by an earlier crawl of the site. *)
Definition earlier_db : Database :=
  {| pages := list_to_map [old_row "https://example.com";
                           old_row "https://example.com/";
                           old_row "https://example.com/about";
                           old_row "https://example.com/contact";
                           old_row "https://example.com/files/report.pdf"];
     links := [] |}.


(** The disk fills up just before the first call on the database. *)
Definition disk_full : nat -> bool := fun t => (1 <=? t)%nat.

(** A site whose robots.txt is served: everything under /files is
    disallowed. *)
Definition robots_txt : string := "User-agent: *
Disallow: /files".

Definition polite : World :=
  {| urlparse := url_parse;
     urldefrag := url_defrag;
     urljoin := url_join;
     session_get := fun _ url =>
       if String.eqb url "https://example.com/robots.txt"
       then Returned {| resp_status_code := 200;
                        resp_content_type := Some "text/plain";
                        resp_text := robots_txt |}
       else site url;
     parser_rejects := fun _ => false;
     soup_title := title_of;
     str_strip := strip_of;
     extract_text := fun body => body;
     find_all_a_href := hrefs_of;
     rules_can_fetch := fun text _ url =>
       Some (negb (String.eqb text robots_txt
                   && String.prefix "https://example.com/files" url));
     utcnow := fun _ => "2024-01-01T00:00:00Z";
     time_sleep := sleep;
     sqlite_fault := no_faults |}.

(** A site whose home page links to a host that only ends like its own. *)
Definition portal_html : string :=
  "<title>Portal</title><a href=https://notexample.com>Partner</a>".

Definition lookalike : World :=
  {| urlparse := url_parse;
     urldefrag := url_defrag;
     urljoin := url_join;
     session_get := fun _ url =>
       if String.eqb url "https://example.com" then html 200 portal_html
       else html 200 missing_html;
     parser_rejects := fun _ => false;
     soup_title := fun body =>
       if String.eqb body portal_html then Some "Portal" else None;
     str_strip := strip_of;
     extract_text := fun body => body;
     find_all_a_href := fun body =>
       if String.eqb body portal_html then ["https://notexample.com"] else [];
     rules_can_fetch := fun _ _ _ => Some true;
     utcnow := fun _ => "2024-01-01T00:00:00Z";
     time_sleep := sleep;
     sqlite_fault := no_faults |}.

(** The database file after a crawl of https://notexample.com was stored in
    it. *)
Definition shared_db : Database :=
  {| pages := list_to_map [old_row "https://notexample.com"]; links := [] |}.

(** Command lines: a crawl of the site, and one with a malformed URL. *)
Definition args (url : string) (budget : Z) (robots : bool) : Args :=
  {| arg_url := url; arg_db_path := "scraper.db"; arg_max_pages := budget;
     arg_delay := Finite 0; arg_timeout := Finite (Qc_of_Z 10);
     arg_include_subdomains := false; arg_respect_robots := robots;
     arg_verbose := false |}.

Definition seed_url : string := "https://example.com".
Definition about_url : string := "https://example.com/about".
Definition pdf_url : string := "https://example.com/files/report.pdf".

End Sample.

(** * Properties *)

(** ** Strings *)

Lemma endswith_unfold (s suffix : string) :
  endswith s suffix
  = (String.eqb s suffix
     || match s with
        | EmptyString => false
        | String _ s' => endswith s' suffix
        end).
Proof. by destruct s. Qed.

(** [endswith] is the suffix test: some prefix, possibly empty, completes
    [suffix] to [s]. *)
Lemma endswith_spec (s suffix : string) :
  endswith s suffix = true <-> exists prefix, s = prefix ++ suffix.
Proof.
  induction s as [|c s IH]; rewrite endswith_unfold.
  - rewrite orb_false_r, String.eqb_eq. split.
    + intros <-. by exists "".
    + intros [[|c p] H]; simpl in H; [done | discriminate].
  - rewrite orb_true_iff, String.eqb_eq, IH. split.
    + intros [<- | [p ->]]; [by exists "" | by exists (String c p)].
    + intros [[|c' p] H]; simpl in H; [by left | right].
      injection H as _ ->. by exists p.
Qed.

(** ** The scope policy *)

Section Policy.

Context (W : World) (self : SiteCrawler).

(** [allowed_url] can only raise the ValueError of urllib. *)
Lemma allowed_url_raises (url : string) (e : exn) :
  allowed_url W self url = Raise e -> e = ValueError.
Proof.
  unfold allowed_url, can_fetch, or_value_error.
  repeat case_match; congruence.
Qed.

(** A URL that [allowed_url] accepts passed the scheme and host tests. *)
Lemma allowed_url_in_scope (url : string) :
  allowed_url W self url = Ok true -> in_scope W self url.
Proof.
  unfold allowed_url, in_scope. intros H.
  destruct (urlparse W url) as [parsed|]; [|done].
  destruct (scheme_not_web parsed) eqn:Hscheme; [done|].
  destruct (String.eqb (netloc parsed) "") eqn:Hnet; [done|].
  destruct (host_rejected self parsed) eqn:Hhost; [done|].
  exists parsed. split; [done|]. split; [|split].
  - unfold scheme_not_web in Hscheme.
    apply negb_false_iff, orb_true_iff in Hscheme.
    by rewrite !String.eqb_eq in Hscheme.
  - by apply String.eqb_neq.
  - unfold host_rejected in Hhost. destruct (include_subdomains self).
    + by apply negb_false_iff, endswith_spec in Hhost.
    + by apply negb_false_iff, String.eqb_eq in Hhost.
Qed.

(** A parser on which neither [parse] nor [read] was called refuses every
    URL. *)
Lemma can_fetch_unparsed (useragent url : string) :
  can_fetch W RobotFileParser_new useragent url = Ok false.
Proof. reflexivity. Qed.

Lemma allowed_url_unparsed_robots (url : string) (parsed : ParseResult) :
  robot_parser self = Some RobotFileParser_new ->
  urlparse W url = Some parsed ->
  allowed_url W self url = Ok false.
Proof.
  intros Hrp Hparse. unfold allowed_url. rewrite Hparse, Hrp, can_fetch_unparsed.
  by repeat case_match.
Qed.

End Policy.

(** ** One iteration of the loop *)

Section Iteration.

Context (W : World) (self : SiteCrawler).

(** The scan of the anchors leaves everything but the deque alone, and
    appends to the deque exactly the URLs it adds to [links_to_store]. *)
Lemma scan_links_spec (url : string) (hrefs : list string) :
  forall (links_to_store : gset string) (s : State) (r : result (gset string))
         (s' : State),
    scan_links W self url hrefs links_to_store s = (r, s') ->
    visited s' = visited s /\ db s' = db s /\ tick s' = tick s
    /\ fetched s' = fetched s /\ emitted s' = emitted s
    /\ exists added,
         queue s' = (queue s ++ added)%list
         /\ Forall (fun u => (u ∉ visited s)
                             /\ exists href joined,
                                  href ∈ hrefs
                                  /\ urljoin W url href = Some joined
                                  /\ urldefrag W joined = Some u
                                  /\ allowed_url W self u = Ok true) added
         /\ match r with
            | Ok links' => links' = list_to_set added ∪ links_to_store
            | Raise e => e = ValueError
            end.
Proof.
  induction hrefs as [|href rest IH]; intros links s r s' Hrun; simpl in Hrun.
  - unfold_monad. injection Hrun as <- <-. repeat split.
    exists []. rewrite app_nil_r. repeat split; [constructor | set_solver].
  - unfold_monad.
    destruct (urljoin W url href) as [joined|] eqn:Hjoin; simpl in Hrun;
      [|injection Hrun as <- <-; repeat split; exists []; by rewrite app_nil_r].
    destruct (urldefrag W joined) as [next_url|] eqn:Hfrag; simpl in Hrun;
      [|injection Hrun as <- <-; repeat split; exists []; by rewrite app_nil_r].
    destruct (allowed_url W self next_url) as [allowed|e] eqn:Hallowed;
      simpl in Hrun;
      [|injection Hrun as <- <-; repeat split; exists []; rewrite app_nil_r;
        repeat split; [constructor | by eapply allowed_url_raises]].
    destruct (allowed && negb (bool_decide (next_url ∈ visited s))) eqn:Hcond.
    + apply andb_true_iff in Hcond as [-> Hnew].
      apply negb_true_iff, bool_decide_eq_false in Hnew.
      apply IH in Hrun. simpl in Hrun.
      destruct Hrun as (Hv & Hd & Ht & Hf & He & added & Hq & Hadded & Hr).
      do 5 (split; [done|]).
      exists (next_url :: added). rewrite Hq, <- app_assoc. simpl.
      split; [done|]. split.
      * constructor.
        -- split; [done|]. exists href, joined. set_solver.
        -- eapply Forall_impl; [exact Hadded|]. simpl.
           intros u (Hu & h & j & Hh & Hrest). split; [done|].
           exists h, j. set_solver.
      * destruct r; [|done]. subst. set_solver.
    + apply IH in Hrun.
      destruct Hrun as (Hv & Hd & Ht & Hf & He & added & Hq & Hadded & Hr).
      do 5 (split; [done|]).
      exists added. split; [done|]. split; [|done].
      eapply Forall_impl; [exact Hadded|]. simpl.
      intros u (Hu & h & j & Hh & Hrest). split; [done|].
      exists h, j. set_solver.
Qed.

(** What the scan enqueues are link targets of the page. *)
Lemma scan_links_targets (url : string) (response : Response)
    (seen : gset string) (added : list string) :
  str_contains "text/html" (content_type_of response) = true ->
  Forall (fun u => (u ∉ seen)
                   /\ exists href joined,
                        href ∈ find_all_a_href W (resp_text response)
                        /\ urljoin W url href = Some joined
                        /\ urldefrag W joined = Some u
                        /\ allowed_url W self u = Ok true) added ->
  Forall (link_target W self url response) added
  /\ Forall (fun u => u ∉ seen) added.
Proof.
  intros Hhtml Hadded. split.
  - eapply Forall_impl; [exact Hadded|]. intros u [_ Hu]. by split.
  - eapply Forall_impl; [exact Hadded|]. by intros u [Hu _].
Qed.

(** A database call changes the database, the tick and the record of calls,
    and fails with a sqlite error only. *)
Lemma db_call_spec (c : SinkCall) (s : State) (r : result unit) (s' : State) :
  db_call W c s = (r, s') ->
  queue s' = queue s /\ visited s' = visited s /\ fetched s' = fetched s
  /\ exists ok, emitted s' = (emitted s ++ [(c, ok)])%list
               /\ r = (if ok then Ok tt else Raise Sqlite3Error).
Proof.
  unfold db_call, upsert_page, insert_links. intros Hrun.
  repeat case_match; simplify_eq; simpl; repeat split;
    first [by exists true | by exists false].
Qed.

Lemma pace_spec (s : State) (r : result unit) (s' : State) :
  pace W self s = (r, s') -> s' = s /\ paced r.
Proof.
  unfold pace, paced. unfold_monad. intros Hrun.
  repeat case_match; simplify_eq; auto.
Qed.

(** The end of an iteration whose request returned: the page record, the
    batch of links if there is one, the pause. *)
Lemma store_page_spec (url : string) (page : SinkCall) (links_to_store : gset string)
    (s : State) (r : result unit) (s' : State) :
  (db_call W page;;
   (if bool_decide (links_to_store = ∅) then mret tt
    else db_call W (InsertLinks url (elements links_to_store)));;
   pace W self) s = (r, s') ->
  queue s' = queue s /\ visited s' = visited s /\ fetched s' = fetched s
  /\ exists calls,
       emitted s' = (emitted s ++ calls)%list
       /\ ((calls = [(page, false)] /\ r = Raise Sqlite3Error)
           \/ (calls = [(page, true)] /\ links_to_store = ∅ /\ paced r)
           \/ (exists ok,
                 calls = [(page, true);
                          (InsertLinks url (elements links_to_store), ok)]
                 /\ links_to_store <> ∅
                 /\ if ok then paced r else r = Raise Sqlite3Error)).
Proof.
  unfold mbind, M_bind, bind, mret, M_ret, ret. intros Hrun.
  destruct (db_call W page s) as [r1 s1] eqn:Hpage.
  apply db_call_spec in Hpage as (Hq1 & Hv1 & Hf1 & [|] & He1 & ->);
    [|simplify_eq; repeat split; try done;
      exists [(page, false)]; split; [done | by left]].
  destruct (bool_decide (links_to_store = ∅)) eqn:Hempty.
  - apply bool_decide_eq_true in Hempty.
    apply pace_spec in Hrun as [-> Hr].
    repeat split; try done.
    exists [(page, true)]. split; [done|]. right. by left.
  - apply bool_decide_eq_false in Hempty.
    destruct (db_call W _ s1) as [r2 s2] eqn:Hlinks.
    apply db_call_spec in Hlinks as (Hq2 & Hv2 & Hf2 & ok & He2 & ->).
    destruct ok.
    + apply pace_spec in Hrun as [-> Hr].
      split; [congruence|]. split; [congruence|]. split; [congruence|].
      eexists. split; [by rewrite He2, He1, <- app_assoc|].
      right. right. by exists true.
    + simplify_eq.
      split; [congruence|]. split; [congruence|]. split; [congruence|].
      eexists. split; [by rewrite He2, He1, <- app_assoc|].
      right. right. by exists false.
Qed.

(** The iteration relation describes the loop body. *)
Lemma crawl_body_iteration (s : State) (r : result unit) (s' : State) :
  crawl_body W self s = (r, s') -> iteration W self s r s'.
Proof.
  unfold crawl_body. unfold_monad. intros Hrun.
  destruct (queue s) as [|url0 rest] eqn:Hqueue.
  { injection Hrun as <- <-.
    apply iteration_skip; unfold skipped; rewrite ?Hqueue; auto. }
  simpl in Hrun.
  destruct (urldefrag W url0) as [url|] eqn:Hfrag; simpl in Hrun;
    [|injection Hrun as <- <-;
      apply iteration_skip; unfold skipped; rewrite ?Hqueue, ?Hfrag; auto].
  destruct (bool_decide (url ∈ visited s)) eqn:Hseen.
  { apply bool_decide_eq_true in Hseen. injection Hrun as <- <-.
    apply iteration_skip; unfold skipped; rewrite ?Hqueue, ?Hfrag; auto. }
  apply bool_decide_eq_false in Hseen.
  destruct (allowed_url W self url) as [[|]|e] eqn:Hallowed; simpl in Hrun;
    [ | injection Hrun as <- <-;
        apply iteration_skip; unfold skipped; rewrite ?Hqueue, ?Hfrag; auto
      | injection Hrun as <- <-;
        pose proof (allowed_url_raises _ _ _ _ Hallowed) as ->;
        apply iteration_skip; unfold skipped; rewrite ?Hqueue, ?Hfrag;
        simpl; auto 6 ].
  destruct (session_get W (tick s) url) as [response|] eqn:Hget.
  - (* the request returned *)
    destruct (str_contains "text/html" (content_type_of response)) eqn:Hhtml.
    + (* an HTML page *)
      destruct (parser_rejects W (resp_text response)) eqn:Hsoup; simpl in Hrun.
      { injection Hrun as <- <-.
        eapply iteration_fetch with (added := []) (calls := []); eauto.
        - by rewrite app_nil_r.
        - by rewrite app_nil_r.
        - rewrite Hget. split; [done|]. left. auto. }
      destruct (scan_links W self url _ ∅ _) as [[links|e] s1] eqn:Hscan;
        apply scan_links_spec in Hscan; simpl in Hscan;
        destruct Hscan as (Hv & Hd & Ht & Hf & He & added & Hq & Hadded & Hr);
        apply (scan_links_targets url response) in Hadded as [Htargets Hfresh];
        try done.
      * subst links. rewrite (right_id_L ∅ (∪)) in Hrun.
        apply (store_page_spec url
                 (UpsertPage url (Some (resp_status_code response))
                    (Some (content_type_of response))
                    (page_title W (resp_text response))
                    (Some (extract_text W (resp_text response))))
                 (list_to_set added) s1 r s') in Hrun.
        destruct Hrun as (Hq' & Hv' & Hf' & calls & He' & Hcalls).
        eapply iteration_fetch with (added := added) (calls := calls); eauto;
          try congruence.
        -- by rewrite Hv', Hv.
        -- rewrite Hget. split; [done|]. right. do 2 eexists.
           destruct Hcalls as [?|[(? & Hnone & ?)|(ok & ? & Hsome & ?)]].
           ++ by left.
           ++ right. left. repeat split; try done.
              destruct added; [done | set_solver].
           ++ right. right. exists ok. repeat split; try done.
              intros ->. by apply Hsome.
      * subst e. injection Hrun as <- <-.
        eapply iteration_fetch with (added := added) (calls := []); eauto.
        -- by rewrite Hv.
        -- by rewrite app_nil_r.
        -- rewrite Hget. split; [done|]. left. auto.
    + (* not HTML: nothing is extracted *)
      match type of Hrun with
      | context [db_call W (UpsertPage _ _ _ _ _) ?s0] =>
          pose proof (store_page_spec url
                        (UpsertPage url (Some (resp_status_code response))
                           (Some (content_type_of response)) None None)
                        ∅ s0 r s' Hrun) as Hstore
      end.
      clear Hrun. simpl in Hstore. destruct Hstore as (Hq' & Hv' & Hf' & calls & He' & Hcalls).
      eapply iteration_fetch with (added := []) (calls := calls); eauto.
      -- by rewrite app_nil_r.
      -- rewrite Hget. split; [done|]. right. do 2 eexists.
         destruct Hcalls as [?|[(? & Hnone & ?)|(ok & ? & Hsome & ?)]];
           [by left | by right; left | done].
  - (* the request raised *)
    apply db_call_spec in Hrun. simpl in Hrun.
    destruct Hrun as (Hq' & Hv' & Hf' & ok & He' & Hr).
    eapply iteration_fetch with (added := []) (calls := [_]); eauto.
    + by rewrite app_nil_r.
    + rewrite Hget. split; [done|]. by exists ok.
Qed.

(** The scan misses no anchor: when it goes through, every allowed target
    that is not visited is in [links_to_store]. *)
Lemma scan_links_complete (url : string) (hrefs : list string) :
  forall (links_to_store : gset string) (s : State) (links' : gset string)
         (s' : State),
    scan_links W self url hrefs links_to_store s = (Ok links', s') ->
    links_to_store ⊆ links'
    /\ forall href joined u,
         href ∈ hrefs ->
         urljoin W url href = Some joined ->
         urldefrag W joined = Some u ->
         allowed_url W self u = Ok true ->
         u ∉ visited s ->
         u ∈ links'.
Proof.
  induction hrefs as [|href rest IH]; intros links s links' s' Hrun; simpl in Hrun.
  - unfold_monad. injection Hrun as <- <-. split; [done|].
    intros ? ? ? Hin. by apply elem_of_nil in Hin.
  - unfold_monad.
    destruct (urljoin W url href) as [joined|] eqn:Hjoin; simpl in Hrun; [|done].
    destruct (urldefrag W joined) as [next_url|] eqn:Hfrag; simpl in Hrun; [|done].
    destruct (allowed_url W self next_url) as [allowed|e] eqn:Hallowed;
      simpl in Hrun; [|done].
    destruct (allowed && negb (bool_decide (next_url ∈ visited s))) eqn:Hcond;
      apply IH in Hrun as [Hsub Hall]; simpl in Hall.
    + split; [set_solver|]. intros h j u Hin Hj Hf Ha Hu.
      apply elem_of_cons in Hin as [-> | Hin]; [|eauto].
      simplify_eq. set_solver.
    + split; [done|]. intros h j u Hin Hj Hf Ha Hu.
      apply elem_of_cons in Hin as [-> | Hin]; [|eauto].
      rewrite Hjoin in Hj. injection Hj as <-.
      rewrite Hfrag in Hf. injection Hf as <-.
      rewrite Hallowed in Ha. injection Ha as ->. simpl in Hcond.
      by apply negb_false_iff, bool_decide_eq_true in Hcond.
Qed.

(** An iteration that fetches an HTML page and returns has enqueued every
    link target of the page that was not visited. *)
Lemma crawl_body_enqueues (s s' : State) (url0 : string) (rest : list string)
    (url : string) (response : Response) (t : string) :
  crawl_body W self s = (Ok tt, s') ->
  queue s = url0 :: rest ->
  urldefrag W url0 = Some url ->
  url ∉ visited s ->
  allowed_url W self url = Ok true ->
  session_get W (tick s) url = Returned response ->
  link_target W self url response t ->
  t ∉ visited s ->
  t <> url ->
  t ∈ queue s'.
Proof.
  unfold crawl_body. unfold_monad.
  intros Hrun Hq Hfrag Hnew Hok Hget
    (Hhtml & href & joined & Hin & Hjoin & Hdefrag & Hallowed) Ht Hne.
  rewrite Hq in Hrun. simpl in Hrun. rewrite Hfrag in Hrun. simpl in Hrun.
  rewrite bool_decide_eq_false_2 in Hrun by done.
  rewrite Hok in Hrun. simpl in Hrun. rewrite Hget, Hhtml in Hrun.
  destruct (parser_rejects W (resp_text response)); [done|]. simpl in Hrun.
  destruct (scan_links W self url _ ∅ _) as [[links|e] s1] eqn:Hscan; [|done].
  pose proof (scan_links_spec _ _ _ _ _ _ Hscan)
    as (_ & _ & _ & _ & _ & added & Hq1 & _ & Hlinks).
  apply scan_links_complete in Hscan as [_ Hall]. simpl in Hq1, Hall.
  assert (Hlink : t ∈ links) by (eapply Hall; eauto; set_solver).
  subst links. rewrite (right_id_L ∅ (∪)) in Hrun, Hlink.
  apply (store_page_spec url
           (UpsertPage url (Some (resp_status_code response))
              (Some (content_type_of response))
              (page_title W (resp_text response))
              (Some (extract_text W (resp_text response))))
           (list_to_set added) s1 (Ok tt) s') in Hrun.
  destruct Hrun as (Hq' & _). rewrite Hq', Hq1.
  apply elem_of_list_to_set in Hlink. set_solver.
Qed.

End Iteration.

(** ** The loop *)

Section Loop.

Context (W : World) (self : SiteCrawler).

Lemma crawl_loop_unfold (fuel : nat) (s : State) :
  crawl_loop W self fuel s
  = if loop_cond self s then
      match fuel with
      | O => (Running, s)
      | S fuel' =>
          match crawl_body W self s with
          | (Ok _, s') => crawl_loop W self fuel' s'
          | (Raise e, s') => (Raised e, s')
          end
      end
    else (Done, s).
Proof. by destruct fuel. Qed.

(** A property kept by every iteration holds all along a run, however the
    run goes on. *)
Lemma crawl_loop_invariant (P : State -> Prop) :
  (forall s r s', loop_cond self s = true -> P s -> iteration W self s r s' -> P s') ->
  forall fuel s, P s -> P (crawl_loop W self fuel s).2.
Proof.
  intros Hstep fuel. induction fuel as [|fuel IH]; intros s Hs;
    rewrite crawl_loop_unfold; destruct (loop_cond self s) eqn:Hcond; try done.
  destruct (crawl_body W self s) as [r s1] eqn:Hbody.
  apply crawl_body_iteration in Hbody.
  destruct r; [apply IH|]; eauto.
Qed.

(** Running means the loop condition still holds, Done that it failed. *)
Lemma crawl_loop_status (fuel : nat) (s : State) :
  match (crawl_loop W self fuel s).1 with
  | Running => loop_cond self (crawl_loop W self fuel s).2 = true
  | Done => loop_cond self (crawl_loop W self fuel s).2 = false
  | Raised _ => True
  end.
Proof.
  revert s. induction fuel as [|fuel IH]; intros s;
    rewrite crawl_loop_unfold; destruct (loop_cond self s) eqn:Hcond; try done.
  destruct (crawl_body W self s) as [[[]|e] s1]; [apply IH | done].
Qed.

(** More fuel continues a run that is still running and changes nothing to
    a run that has ended. *)
Lemma crawl_loop_split (n k : nat) (s : State) :
  crawl_loop W self (n + k) s
  = match crawl_loop W self n s with
    | (Running, s') => crawl_loop W self k s'
    | ended => ended
    end.
Proof.
  revert s. induction n as [|n IH]; intros s; simpl (_ + _)%nat;
    rewrite (crawl_loop_unfold 0) || rewrite (crawl_loop_unfold (S n)).
  - destruct (loop_cond self s) eqn:Hcond; [done|].
    rewrite crawl_loop_unfold. by rewrite Hcond.
  - rewrite (crawl_loop_unfold (S (n + k))).
    destruct (loop_cond self s); [|done].
    destruct (crawl_body W self s) as [[[]|e] s1]; [apply IH | done].
Qed.

(** So a run that has ended has one ending, whatever the fuel beyond. *)
Lemma crawl_loop_ended (n k : nat) (s : State) :
  (crawl_loop W self n s).1 <> Running ->
  crawl_loop W self (n + k) s = crawl_loop W self n s.
Proof.
  intros Hended. rewrite crawl_loop_split.
  by destruct (crawl_loop W self n s) as [[| |e] s'].
Qed.

(** *** Termination *)

(** An iteration that fetches adds one to the visited count; one that does
    not takes one from the deque. *)
Lemma iteration_measure (s : State) (r : result unit) (s' : State) :
  loop_cond self s = true ->
  iteration W self s r s' ->
  size (visited s') = S (size (visited s))
  \/ (visited s' = visited s /\ S (length (queue s')) = length (queue s)).
Proof.
  intros Hcond [Hq Hv _ _ _ _ _ | url0 rest url added calls _ _ Hnew _ Hv _ _ _ _ _].
  - right. split; [done|]. rewrite Hq.
    apply andb_true_iff in Hcond as [Hne _].
    apply negb_true_iff, bool_decide_eq_false in Hne.
    by destruct (queue s).
  - left. rewrite Hv, size_union, size_singleton by set_solver. done.
Qed.

Lemma crawl_loop_terminates (s : State) :
  exists fuel, (crawl_loop W self fuel s).1 <> Running.
Proof.
  remember (Z.to_nat (max_pages self - Z.of_nat (size (visited s)))) as budget
    eqn:Hbudget.
  revert s Hbudget.
  induction budget as [budget IHb] using lt_wf_ind. intros s Hbudget.
  remember (length (queue s)) as len eqn:Hlen. revert s Hbudget Hlen.
  induction len as [len IHq] using lt_wf_ind. intros s Hbudget Hlen.
  destruct (loop_cond self s) eqn:Hcond;
    [|exists 0%nat; rewrite crawl_loop_unfold, Hcond; done].
  destruct (crawl_body W self s) as [r s1] eqn:Hbody.
  destruct r as [[]|e];
    [|exists 1%nat; rewrite crawl_loop_unfold, Hcond, Hbody; done].
  pose proof (crawl_body_iteration W self _ _ _ Hbody) as Hiter.
  apply iteration_measure in Hiter as [Hgrow | [Hsame Hpop]]; [| |done].
  - destruct (IHb (Z.to_nat (max_pages self - Z.of_nat (size (visited s1)))))
      with (s := s1) as [fuel Hfuel]; [|done|].
    + apply andb_true_iff in Hcond as [_ Hlt]. apply Z.ltb_lt in Hlt. lia.
    + exists (S fuel). by rewrite crawl_loop_unfold, Hcond, Hbody.
  - destruct (IHq (length (queue s1))) with (s := s1) as [fuel Hfuel];
      [lia | by rewrite Hsame | done |].
    exists (S fuel). by rewrite crawl_loop_unfold, Hcond, Hbody.
Qed.

End Loop.

(** ** Invariants *)

Section Invariants.

Context (W : World) (self : SiteCrawler).

Lemma fetch_invariant_step (s : State) (r : result unit) (s' : State) :
  fetch_invariant W self s -> iteration W self s r s' -> fetch_invariant W self s'.
Proof.
  intros [Hv Hnd Hall Hfrag]
    [Hq' Hv' _ _ Hf' _ _ | url0 rest url added calls _ Hu0 Hnew Hok Hv' Hf' _ _ _ _].
  - split; rewrite ?Hv', ?Hf'; done.
  - split; rewrite ?Hv', ?Hf'.
    + rewrite list_to_set_app_L, Hv. set_solver.
    + apply NoDup_app. split; [done|]. split; [|apply NoDup_singleton].
      intros x Hx ->%list_elem_of_singleton. apply Hnew. rewrite Hv.
      by apply elem_of_list_to_set.
    + apply Forall_app. split; [done|]. by apply Forall_singleton.
    + apply Forall_app. split; [done|]. apply Forall_singleton. by exists url0.
Qed.

Lemma fetch_invariant_initial (db : Database) (tick : nat) :
  fetch_invariant W self (initial_state self db tick).
Proof. split; simpl; [done | constructor | constructor | constructor]. Qed.

Lemma fetch_invariant_crawl (db : Database) (tick fuel : nat) :
  fetch_invariant W self (crawl W self db tick fuel).2.
Proof.
  apply crawl_loop_invariant with (P := fetch_invariant W self).
  - intros s r s' _. apply fetch_invariant_step.
  - apply fetch_invariant_initial.
Qed.

Lemma fetch_invariant_size (s : State) :
  fetch_invariant W self s -> size (visited s) = length (fetched s).
Proof. intros [-> Hnd _ _]. by apply size_list_to_set. Qed.

(** The calls of an iteration that fetched [url]. *)
Lemma calls_of_page_invariant (s : State) (url : string) (outcome : FetchOutcome)
    (added : list string) (r : result unit) (calls : list (SinkCall * bool)) :
  url ∈ fetched s ->
  calls_of_page W self url outcome added r calls ->
  Forall (call_invariant W self s) calls.
Proof.
  intros Hurl. unfold calls_of_page. destruct outcome as [response|].
  - intros [Htargets [[-> _] | (title & text & Hcalls)]]; [constructor|].
    simpl in Hcalls.
    destruct Hcalls as [[-> _] | [(-> & _) | (ok & -> & Hne & _)]];
      repeat constructor; try done.
    + apply NoDup_elements.
    + intros Hnil. apply elements_empty_inv in Hnil.
      destruct added; [done | set_solver].
    + apply Forall_forall. intros u Hu.
      apply elem_of_elements, elem_of_list_to_set in Hu.
      rewrite Forall_forall in Htargets. by destruct (Htargets u Hu) as (_ & ? & ? & ? & ? & ? & ?).
  - intros [_ (ok & -> & _)]. by repeat constructor.
Qed.

Lemma call_invariant_mono (s s' : State) (c : SinkCall * bool) :
  fetched s ⊆ fetched s' -> call_invariant W self s c -> call_invariant W self s' c.
Proof.
  unfold call_invariant. intros Hsub. destruct c.1; [auto|].
  intros (? & ? & ? & ?). auto.
Qed.

Lemma call_invariant_step (s : State) (r : result unit) (s' : State) :
  Forall (call_invariant W self s) (emitted s) ->
  iteration W self s r s' ->
  Forall (call_invariant W self s') (emitted s').
Proof.
  intros Hinv [_ _ _ _ Hf' He' _ | url0 rest url added calls _ _ _ _ _ Hf' _ _ He' Hcalls].
  - rewrite He'. eapply Forall_impl; [exact Hinv|].
    intros c. apply call_invariant_mono. by rewrite Hf'.
  - rewrite He'. apply Forall_app. split.
    + eapply Forall_impl; [exact Hinv|].
      intros c. apply call_invariant_mono. rewrite Hf'. set_solver.
    + eapply calls_of_page_invariant; [|exact Hcalls]. rewrite Hf'. set_solver.
Qed.

Lemma call_invariant_crawl (db : Database) (tick fuel : nat) :
  let s' := (crawl W self db tick fuel).2 in
  Forall (call_invariant W self s') (emitted s').
Proof.
  apply crawl_loop_invariant
    with (P := fun s => Forall (call_invariant W self s) (emitted s)).
  - intros s r s' _. apply call_invariant_step.
  - constructor.
Qed.

(** The loop condition keeps the visited count within the budget. *)
Lemma visited_count_crawl (db : Database) (tick fuel : nat) :
  Z.of_nat (size (visited (crawl W self db tick fuel).2)) <= Z.max 0 (max_pages self).
Proof.
  apply crawl_loop_invariant
    with (P := fun s => Z.of_nat (size (visited s)) <= Z.max 0 (max_pages self)).
  - intros s r s1 Hcond Hs Hiter.
    pose proof Hcond as Hlt. apply andb_true_iff in Hlt as [_ Hlt].
    apply Z.ltb_lt in Hlt.
    destruct (iteration_measure W self s r s1 Hcond Hiter) as [-> | [-> _]]; lia.
  - change (visited (initial_state self db tick)) with (∅ : gset string).
    rewrite size_empty. lia.
Qed.

(** Page records are about fetched URLs. *)
Lemma page_records_fetched (s : State) (calls : list (SinkCall * bool)) :
  Forall (call_invariant W self s) calls ->
  Forall (fun url => url ∈ fetched s) (page_records calls).
Proof.
  induction 1 as [|[c ok] calls Hc _ IH]; simpl; [constructor|].
  unfold call_invariant in Hc. simpl in Hc.
  destruct c; simpl; [by constructor | done].
Qed.

End Invariants.

(** * The claims *)

Section Claims.

Context (W : World) (self : SiteCrawler) (db : Database) (tick : nat).

(** Scope containment, as far as the code has it.  At every point of a run,
    every URL that the loop has passed to [session.get], and so every URL of
    a page record, has scheme http or https and a netloc that, with
    subdomains included, ends with the base netloc as a string (any prefix
    may be put before it, with or without a dot), and that is the base netloc
    when subdomains are excluded. *)
Theorem crawl_stays_in_scope (fuel : nat) :
  let s' := (crawl W self db tick fuel).2 in
  Forall (in_scope W self) (fetched s')
  /\ Forall (in_scope W self) (page_records (emitted s')).
Proof.
  intros s'.
  assert (Hscope : Forall (in_scope W self) (fetched s')).
  { destruct (fetch_invariant_crawl W self db tick fuel) as [_ _ Hall _].
    eapply Forall_impl; [exact Hall|]. apply allowed_url_in_scope. }
  split; [done|].
  pose proof (page_records_fetched W self s' _
                (call_invariant_crawl W self db tick fuel)) as Hrec.
  rewrite Forall_forall in Hscope. eapply Forall_impl; [exact Hrec|]. auto.
Qed.

(** C6. No duplicate visits.  At every point of a run, the list of the URLs
    that the loop has passed to [session.get] has no repetition; each of them
    is an output of [urldefrag], that is, stripped of its fragment. *)
Theorem crawl_fetches_each_url_once (fuel : nat) :
  let s' := (crawl W self db tick fuel).2 in
  NoDup (fetched s')
  /\ Forall (fun url => exists url0, urldefrag W url0 = Some url) (fetched s').
Proof.
  intros s'. by destruct (fetch_invariant_crawl W self db tick fuel).
Qed.

(** C7, as amended.  At every point of a run the number of visited URLs is at
    most the page budget, a negative budget counting as zero; and it is the
    number of fetch attempts. *)
Theorem crawl_respects_budget (fuel : nat) :
  let s' := (crawl W self db tick fuel).2 in
  Z.of_nat (size (visited s')) <= Z.max 0 (max_pages self)
  /\ length (fetched s') = size (visited s').
Proof.
  intros s'. split.
  - apply visited_count_crawl.
  - symmetry. apply (fetch_invariant_size W self), fetch_invariant_crawl.
Qed.

(** C10. No duplicate target in a batch of links.  At every point of a run,
    every batch handed to [insert_links] lists each target once, so the
    edges of the batch are pairwise distinct. *)
Theorem crawl_link_batches_have_no_duplicates (fuel : nat) :
  let s' := (crawl W self db tick fuel).2 in
  Forall (fun c => match fst c with
                   | InsertLinks from_url to_urls =>
                       NoDup to_urls /\ NoDup (map (pair from_url) to_urls)
                   | UpsertPage _ _ _ _ _ => True
                   end) (emitted s').
Proof.
  intros s'. eapply Forall_impl; [apply call_invariant_crawl|].
  intros [c ok]. unfold call_invariant. simpl. destruct c; [done|].
  intros (_ & Hnd & _). split; [done|].
  apply NoDup_fmap_2; [|done]. by intros x y [=].
Qed.

End Claims.

(** ** Reachability, and how a run ends *)

Section Ending.

Context (W : World) (self : SiteCrawler).

Lemma reach_invariant_step (s : State) (r : result unit) (s' : State) :
  reach_invariant W self s -> iteration W self s r s' -> reach_invariant W self s'.
Proof.
  intros [Hfetched Hqueue]
    [Hq' _ _ _ Hf' _ _ | url0 rest url added calls Hq Hfrag _ Hok _ Hf' Hq' _ _ Hcalls].
  - split; rewrite ?Hf', ?Hq'; [done|].
    destruct (queue s); [done|]. by apply Forall_cons in Hqueue as [_ ?].
  - rewrite Hq in Hqueue. apply Forall_cons in Hqueue as [Hhead Hrest].
    assert (Hurl : reachable W self url).
    { destruct Hhead as [-> | (page & t & response & Hpage & Hget & Htarget)].
      - by apply reach_seed.
      - by eapply reach_link. }
    split; rewrite ?Hf', ?Hq'.
    + apply Forall_app. split; [done|]. by apply Forall_singleton.
    + apply Forall_app. split; [done|].
      unfold calls_of_page in Hcalls.
      destruct (session_get W (tick s) url) as [response|] eqn:Hget.
      * destruct Hcalls as [Htargets _].
        eapply Forall_impl; [exact Htargets|]. intros u Hu.
        right. by exists url, (tick s), response.
      * destruct Hcalls as [-> _]. constructor.
Qed.

Lemma reach_invariant_crawl (db : Database) (tick fuel : nat) :
  reach_invariant W self (crawl W self db tick fuel).2.
Proof.
  apply crawl_loop_invariant with (P := reach_invariant W self).
  - intros s r s' _. apply reach_invariant_step.
  - split; simpl; [constructor|]. apply Forall_singleton. by left.
Qed.

(** The calls of an iteration all return, unless the iteration ends with a
    sqlite error, and then one of them raised it; an iteration of the loop
    never ends with an IndexError. *)
Lemma iteration_result (s : State) (r : result unit) (s' : State) :
  loop_cond self s = true ->
  iteration W self s r s' ->
  exists calls,
    emitted s' = (emitted s ++ calls)%list
    /\ match r with
       | Raise Sqlite3Error => exists c, (c, false) ∈ calls
       | Raise IndexError => False
       | _ => Forall (fun c => snd c = true) calls
       end.
Proof.
  intros Hcond [_ _ _ _ _ He' Hskip | url0 rest url added calls _ _ _ _ _ _ _ _ He' Hcalls].
  - exists []. rewrite app_nil_r. split; [done|].
    apply andb_true_iff in Hcond as [Hne _].
    apply negb_true_iff, bool_decide_eq_false in Hne.
    unfold skipped in Hskip. destruct (queue s); [done|].
    destruct (urldefrag W _); [|by subst].
    destruct Hskip as [[_ ->] | [(_ & _ & ->) | (_ & _ & ->)]]; constructor.
  - exists calls. split; [done|].
    unfold calls_of_page in Hcalls.
    destruct (session_get W (tick s) url) as [response|].
    + destruct Hcalls as [_ [[-> [-> | ->]] | (title & text & Hcalls)]];
        [constructor..|].
      simpl in Hcalls.
      destruct Hcalls as [[-> ->] | [(-> & _ & Hr) | (ok & -> & _ & Hr)]].
      * eexists. apply list_elem_of_here.
      * destruct Hr as [-> | [-> | ->]]; by repeat constructor.
      * destruct ok; [destruct Hr as [-> | [-> | ->]]; by repeat constructor|].
        subst r. eexists. apply list_elem_of_further, list_elem_of_here.
    + destruct Hcalls as [_ ([|] & -> & ->)]; [by repeat constructor|].
      eexists. apply list_elem_of_here.
Qed.

(** Along a run every call on the database returns, until one raises and
    ends the run with its error. *)
Lemma crawl_loop_calls (fuel : nat) :
  forall s,
    Forall (fun c => snd c = true) (emitted s) ->
    match (crawl_loop W self fuel s).1 with
    | Raised Sqlite3Error => exists c, (c, false) ∈ emitted (crawl_loop W self fuel s).2
    | Raised IndexError => False
    | _ => Forall (fun c => snd c = true) (emitted (crawl_loop W self fuel s).2)
    end.
Proof.
  induction fuel as [|fuel IH]; intros s Hs;
    rewrite crawl_loop_unfold; destruct (loop_cond self s) eqn:Hcond; try done.
  destruct (crawl_body W self s) as [r s1] eqn:Hbody.
  apply crawl_body_iteration in Hbody.
  apply iteration_result in Hbody as (calls & He & Hr); [|done].
  destruct r as [[]|[]]; simpl; try done;
    try (rewrite He; by apply Forall_app).
  - apply IH. rewrite He. by apply Forall_app.
  - destruct Hr as [c Hc]. exists c. rewrite He. set_solver.
Qed.

End Ending.

Section ClaimsOnEnding.

Context (W : World) (self : SiteCrawler) (db : Database) (tick : nat).

(** C9, as amended.  Whatever the pages contain, the loop terminates: some
    number of iterations ends the run.  The visited count never exceeds the
    budget (a negative budget counting as zero), every visited URL is an
    eligible URL reachable from the seed, and so the visited count is at most
    the size of any finite set holding all of these. *)
Theorem crawl_terminates_within_bounds :
  (exists fuel, (crawl W self db tick fuel).1 <> Running)
  /\ forall fuel,
       let s' := (crawl W self db tick fuel).2 in
       Z.of_nat (size (visited s')) <= Z.max 0 (max_pages self)
       /\ (forall url, url ∈ visited s' -> reachable W self url)
       /\ forall U : gset string,
            (forall url, reachable W self url -> url ∈ U) ->
            (size (visited s') <= size U)%nat.
Proof.
  split; [apply crawl_loop_terminates|].
  intros fuel s'.
  assert (Hreach : forall url, url ∈ visited s' -> reachable W self url).
  { intros url Hurl.
    destruct (fetch_invariant_crawl W self db tick fuel) as [Hv _ _ _].
    destruct (reach_invariant_crawl W self db tick fuel) as [Hfetched _].
    fold s' in Hv, Hfetched. rewrite Hv in Hurl.
    apply elem_of_list_to_set in Hurl.
    rewrite Forall_forall in Hfetched. auto. }
  split; [apply visited_count_crawl|]. split; [done|].
  intros U HU. apply subseteq_size. intros url Hurl. auto.
Qed.

(** C1, as amended.  The loop always ends, in Done or by an exception that
    leaves [crawl].  It ends in Done only with the deque empty or the budget
    reached.  A call on the database that raises is not caught: the run ends
    with a sqlite error exactly when one of its database calls failed. *)
Theorem crawl_ends_done_or_raises :
  (exists fuel, (crawl W self db tick fuel).1 <> Running)
  /\ forall fuel,
       let st := (crawl W self db tick fuel).1 in
       let s' := (crawl W self db tick fuel).2 in
       (st = Done -> queue s' = [] \/ max_pages self <= Z.of_nat (size (visited s')))
       /\ (st = Raised Sqlite3Error <-> exists c, (c, false) ∈ emitted s').
Proof.
  split; [apply crawl_loop_terminates|].
  intros fuel st s'.
  pose proof (crawl_loop_status W self fuel (initial_state self db tick)) as Hst.
  pose proof (crawl_loop_calls W self fuel (initial_state self db tick)) as Hcalls.
  fold (crawl W self db tick fuel) in Hst, Hcalls. fold st s' in Hst, Hcalls.
  specialize (Hcalls (Forall_nil_2 _)).
  assert (Hsome : forall c, (c, false) ∈ emitted s' ->
                    ~ Forall (fun c => snd c = true) (emitted s')).
  { intros c Hc Hall. rewrite Forall_forall in Hall. by apply Hall in Hc. }
  split; [|split].
  - intros Hdone. rewrite Hdone in Hst.
    apply andb_false_iff in Hst as [Hq | Hb].
    + left. by apply negb_false_iff, bool_decide_eq_true in Hq.
    + right. by apply Z.ltb_ge in Hb.
  - intros He. by rewrite He in Hcalls.
  - intros [c Hc]. destruct st as [| |[]]; try done; by apply Hsome in Hc.
Qed.

End ClaimsOnEnding.

(** ** The visited set, and runs of one iteration *)

Section ClaimsOnIterations.

Context (W : World) (self : SiteCrawler).

Lemma iteration_visited_mono (s : State) (r : result unit) (s' : State) :
  iteration W self s r s' -> visited s ⊆ visited s'.
Proof.
  intros [_ -> _ _ _ _ _ | url0 rest url added calls _ _ _ _ -> _ _ _ _ _];
    set_solver.
Qed.

(** C5, as amended.  In every iteration, from any state: the visited set
    only grows; a dequeued URL that the policy rejects is dropped without
    being inserted into the visited set or fetched; what is enqueued is not
    in the visited set, and what is fetched was not in it before, so a
    URL once inserted is neither enqueued nor fetched again.  Along a run
    the visited set grows with the number of iterations. *)
Theorem crawl_visited_set_discipline (s : State) :
  let s' := (crawl_body W self s).2 in
  visited s ⊆ visited s'
  /\ (forall url0 rest url,
        queue s = url0 :: rest ->
        urldefrag W url0 = Some url ->
        allowed_url W self url = Ok false ->
        visited s' = visited s /\ fetched s' = fetched s /\ queue s' = rest)
  /\ (exists added new,
        queue s' = (tail (queue s) ++ added)%list
        /\ fetched s' = (fetched s ++ new)%list
        /\ visited s' = list_to_set new ∪ visited s
        /\ Forall (fun url => url ∉ visited s') added
        /\ Forall (fun url => url ∉ visited s) new)
  /\ forall n k,
       visited (crawl_loop W self n s).2 ⊆ visited (crawl_loop W self (n + k) s).2.
Proof.
  intros s'. destruct (crawl_body W self s) as [r s1] eqn:Hbody.
  apply crawl_body_iteration in Hbody as Hiter. simpl in s'. subst s'.
  split; [by eapply iteration_visited_mono|]. split; [|split].
  - intros url0 rest url Hq Hfrag Hno.
    destruct Hiter as [Hq' Hv' _ _ Hf' _ _ | u0 rest' u added calls Hq1 Hfrag1 _ Hok _ _ _ _ _ _].
    + by rewrite Hq', Hv', Hf', Hq.
    + congruence.
  - destruct Hiter as [Hq' Hv' _ _ Hf' _ _ | u0 rest u added calls Hq Hfrag Hnew Hok Hv' Hf' Hq' Hfresh _ _].
    + exists [], []. rewrite !app_nil_r. repeat split; try done.
      rewrite Hv'. set_solver.
    + exists added, [u]. rewrite Hq. repeat split; try done.
      * rewrite Hv'. set_solver.
      * by apply Forall_singleton.
  - intros n k. rewrite crawl_loop_split.
    destruct (crawl_loop W self n s) as [[| |e] sn]; try done. simpl.
    apply crawl_loop_invariant with (P := fun x => visited sn ⊆ visited x); [|done].
    intros x r' x' _ Hx Hstep. apply iteration_visited_mono in Hstep. set_solver.
Qed.

(** C3, as amended.  With a page budget of 1 and an eligible seed the run is
    over after one iteration and the only URL fetched is the
    fragment-stripped seed.  At most one page record is emitted, and every
    link edge emitted starts at the seed.  If [crawl] returns, exactly one
    page record was emitted, for the seed, and the link edges emitted are one
    edge from the seed to each distinct URL enqueued from its page, no edge
    twice: there is an edge to [t] exactly when [t] is not the seed and is a
    link target of the page that the request for the seed returned (the
    joined, fragment-stripped and allowed target of one of its anchors, the
    page being HTML), and there is no edge exactly when the seed page has no
    such target. *)
Theorem crawl_budget_one (db : Database) (tick fuel : nat) (url : string) :
  max_pages self = 1 ->
  urldefrag W (base_url self) = Some url ->
  allowed_url W self url = Ok true ->
  let st := (crawl W self db tick (S fuel)).1 in
  let s' := (crawl W self db tick (S fuel)).2 in
  st <> Running
  /\ fetched s' = [url]
  /\ (length (page_records (emitted s')) <= 1)%nat
  /\ Forall (fun edge => fst edge = url) (link_edges (emitted s'))
  /\ (st = Done ->
      page_records (emitted s') = [url]
      /\ link_edges (emitted s')
         ≡ₚ map (pair url) (elements (list_to_set (queue s') : gset string))
      /\ NoDup (link_edges (emitted s'))
      /\ (forall t,
            (url, t) ∈ link_edges (emitted s')
            <-> t <> url
                /\ exists response,
                     session_get W tick url = Returned response
                     /\ link_target W self url response t)
      /\ (link_edges (emitted s') = []
          <-> forall response t,
                session_get W tick url = Returned response ->
                link_target W self url response t ->
                t = url)).
Proof.
  intros Hbudget Hfrag Hok st s'.
  assert (Hcond : loop_cond self (initial_state self db tick) = true).
  { unfold loop_cond.
    change (visited (initial_state self db tick)) with (∅ : gset string).
    by rewrite size_empty, Hbudget. }
  destruct (crawl_body W self (initial_state self db tick)) as [r s1] eqn:Hbody.
  pose proof (crawl_body_iteration W self _ _ _ Hbody) as Hiter.
  destruct Hiter as [_ _ _ _ _ _ Hskip
                    | u0 rest u added calls Hq Hfrag1 _ _ Hv' Hf' Hq' Hfresh He' Hcalls].
  { unfold skipped in Hskip. simpl in Hskip. rewrite Hfrag in Hskip.
    destruct Hskip as [[Hin _] | [(_ & Hno & _) | (_ & Hno & _)]];
      [set_solver | congruence | congruence]. }
  simpl in Hq, Hv', Hf', He', Hcalls. injection Hq as <- <-.
  rewrite Hfrag in Hfrag1. injection Hfrag1 as <-.
  simpl in Hq'.
  assert (Hstop : loop_cond self s1 = false).
  { unfold loop_cond. rewrite Hv', (right_id_L ∅ (∪)), size_singleton, Hbudget.
    apply andb_false_r. }
  assert (Hrun : crawl W self db tick (S fuel)
                 = (match r with Ok _ => Done | Raise e => Raised e end, s1)).
  { unfold crawl. rewrite crawl_loop_unfold, Hcond, Hbody.
    destruct r as [[]|e]; [|done]. by rewrite crawl_loop_unfold, Hstop. }
  assert (Hpage : (length (page_records calls) <= 1)%nat
                  /\ Forall (fun edge => fst edge = url) (link_edges calls)
                  /\ (r = Ok tt ->
                      page_records calls = [url]
                      /\ link_edges calls
                         = map (pair url) (elements (list_to_set added : gset string)))).
  { unfold calls_of_page in Hcalls.
    destruct (session_get W tick url) as [response|].
    - destruct Hcalls as [_ [[-> [-> | ->]] | (title & text & Hcalls)]];
        [simpl; split; [lia|]; split; [constructor | done]..|].
      simpl in Hcalls.
      destruct Hcalls as [[-> ->] | [(-> & -> & Hr) | (ok & -> & _ & Hr)]]; simpl.
      + split; [lia|]. split; [constructor | done].
      + split; [lia|]. split; [constructor|]. by rewrite elements_empty.
      + rewrite app_nil_r. split; [lia|]. split; [|done].
        apply Forall_forall. by intros edge (t & -> & _)%list_elem_of_fmap.
    - destruct Hcalls as [-> (ok & -> & ->)]. simpl.
      split; [lia|]. split; [constructor|]. by rewrite elements_empty. }
  destruct Hpage as (Hlen & Hfrom & Hdone).
  subst st s'. rewrite Hrun. simpl. rewrite Hf', He', Hq'. simpl.
  split; [by destruct r|]. split; [done|]. split; [done|]. split; [done|].
  intros Hst. destruct r as [[]|e]; [|done].
  destruct (Hdone eq_refl) as [Hrecords Hedges]. rewrite Hedges.
  assert (Hadded : forall t,
            t ∈ added
            <-> t <> url
                /\ exists response,
                     session_get W tick url = Returned response
                     /\ link_target W self url response t).
  { intros t. split.
    - intros Ht. split.
      + rewrite Forall_forall in Hfresh. apply Hfresh in Ht. set_solver.
      + unfold calls_of_page in Hcalls.
        destruct (session_get W tick url) as [response|].
        * destruct Hcalls as [Htargets _]. rewrite Forall_forall in Htargets.
          exists response. auto.
        * destruct Hcalls as [-> _]. by apply elem_of_nil in Ht.
    - intros (Hne & response & Hget & Htarget).
      pose proof (crawl_body_enqueues W self _ _ _ _ _ _ t Hbody eq_refl Hfrag
                    (not_elem_of_empty url) Hok Hget Htarget
                    (not_elem_of_empty t) Hne) as Hin.
      by rewrite Hq' in Hin. }
  assert (Hedge : forall t,
            (url, t) ∈ map (pair url) (elements (list_to_set added : gset string))
            <-> t ∈ added).
  { intros t. rewrite list_elem_of_fmap. split.
    - intros (t' & [= <-] & Ht).
      by apply elem_of_elements, elem_of_list_to_set in Ht.
    - intros Ht. exists t. split; [done|].
      by apply elem_of_elements, elem_of_list_to_set. }
  split; [done|]. split; [done|]. split.
  { apply NoDup_fmap_2; [by intros x y [=] | apply NoDup_elements]. }
  split.
  { intros t. by rewrite Hedge, Hadded. }
  split.
  - intros Hnil response t Hget Htarget.
    destruct (decide (t = url)) as [|Hne]; [done|].
    assert (Hin : t ∈ added) by (apply Hadded; eauto).
    apply Hedge in Hin. rewrite Hnil in Hin. by apply elem_of_nil in Hin.
  - intros Hnone.
    destruct (elements (list_to_set added : gset string)) as [|t l] eqn:Hel;
      [done|].
    assert (Hin : t ∈ added).
    { apply (elem_of_list_to_set (C := gset string)), elem_of_elements.
      rewrite Hel. apply list_elem_of_here. }
    apply Hadded in Hin as (Hne & response & Hget & Htarget).
    by apply Hnone in Htarget.
Qed.

End ClaimsOnIterations.

(** ** Failing fetches and unavailable robots *)

Section ClaimsOnFailures.

Context (W : World).


(** When the robots request raises, or its response is not ok, [__init__]
    leaves the parser as it was made; [allowed_url] then refuses every URL
    that can be parsed. *)
Lemma robots_unavailable_blocks_everything (tick : nat) (url : string)
    (max_pages : Z) (delay timeout : PyFloat) (include_subdomains : bool)
    (user_agent : string) (self : SiteCrawler) (tick' : nat) :
  SiteCrawler_init W tick url max_pages delay timeout include_subdomains true
    user_agent = Ok (self, tick') ->
  (forall robots_url,
     urljoin W (rstrip_slash url) "/robots.txt" = Some robots_url ->
     match session_get W tick robots_url with
     | Returned response => resp_ok response = false
     | RequestException => True
     end) ->
  robot_parser self = Some RobotFileParser_new
  /\ forall u parsed, urlparse W u = Some parsed -> allowed_url W self u = Ok false.
Proof.
  unfold SiteCrawler_init. intros Hinit Hrobots.
  destruct (urlparse W (rstrip_slash url)) as [parsed_base|]; [|done].
  destruct (urljoin W (rstrip_slash url) "/robots.txt") as [robots_url|]; [|done].
  specialize (Hrobots robots_url eq_refl).
  assert (Hrp : robot_parser self = Some RobotFileParser_new).
  { destruct (session_get W tick robots_url) as [response|].
    - rewrite Hrobots in Hinit. by injection Hinit as <- _.
    - by injection Hinit as <- _. }
  split; [done|]. intros u parsed. by apply allowed_url_unparsed_robots.
Qed.

End ClaimsOnFailures.

(** * The crawler on the sample site *)

(** ** What the runs look like *)

(** A crawl of the whole site over the database of an earlier crawl: five
    pages in breadth-first order, the last one a failed request. *)
Example sample_crawl :
  let run := crawl (Sample.world Sample.no_faults) (Sample.crawler 10 false)
               Sample.earlier_db 0 10 in
  run.1 = Done
  /\ fetched run.2
     = ["https://example.com"; "https://example.com/about";
        "https://example.com/files/report.pdf"; "https://example.com/";
        "https://example.com/contact"]
  /\ page_records (emitted run.2) = fetched run.2
  /\ link_edges (emitted run.2)
     ≡ₚ [("https://example.com", "https://example.com/about");
         ("https://example.com", "https://example.com/files/report.pdf");
         ("https://example.com/about", "https://example.com/");
         ("https://example.com/about", "https://example.com/contact")]
  /\ size (visited run.2) = 5%nat.
Proof.
  intros run.
  assert (Hedges : link_edges (emitted run.2)
                   = [("https://example.com", "https://example.com/about");
                      ("https://example.com", "https://example.com/files/report.pdf");
                      ("https://example.com/about", "https://example.com/contact");
                      ("https://example.com/about", "https://example.com/")])
    by (vm_compute; reflexivity).
  rewrite Hedges.
  split; [vm_compute; reflexivity|]. split; [vm_compute; reflexivity|].
  split; [vm_compute; reflexivity|]. split; [|vm_compute; reflexivity].
  do 2 apply perm_skip. apply perm_swap.
Qed.

(** With a budget of two the run stops after two pages, deque not empty. *)
Example sample_crawl_budget_two :
  let run := crawl (Sample.world Sample.no_faults) (Sample.crawler 2 false)
               Sample.earlier_db 0 10 in
  run.1 = Done
  /\ fetched run.2 = ["https://example.com"; "https://example.com/about"]
  /\ length (queue run.2) = 4%nat.
Proof. vm_compute. repeat split; reflexivity. Qed.

(** The suffix test of the host rule accepts a host that merely ends with
    the base host. *)
Example suffix_match_is_textual :
  endswith "notexample.com" "example.com" = true
  /\ allowed_url (Sample.world Sample.no_faults) (Sample.crawler 10 true)
       "https://notexample.com/" = Ok true
  /\ allowed_url (Sample.world Sample.no_faults) (Sample.crawler 10 false)
       "https://notexample.com/" = Ok false.
Proof. vm_compute. repeat split; reflexivity. Qed.

(** ** C4 *)

(** C4, the code at the failing input.  Subdomains are included and the base
    host is example.com.  The home page links to https://notexample.com,
    whose host is not example.com and is no subdomain of it (no label and
    dot before example.com give it), but ends with the letters of the base
    host: [allowed_url] accepts the URL, and the crawl requests it and hands
    a page record for it to the database. *)
Theorem lookalike_host_is_fetched :
  let self := Sample.crawler 10 true in
  let run := crawl Sample.lookalike self Sample.shared_db 0 10 in
  include_subdomains self = true
  /\ netloc (parsed_base self) = "example.com"
  /\ urlparse Sample.lookalike "https://notexample.com"
     = Some {| scheme := "https"; netloc := "notexample.com" |}
  /\ "notexample.com" <> "example.com"
  /\ (forall label, "notexample.com" <> label ++ "." ++ "example.com")
  /\ allowed_url Sample.lookalike self "https://notexample.com" = Ok true
  /\ run.1 = Done
  /\ fetched run.2 = ["https://example.com"; "https://notexample.com"]
  /\ page_records (emitted run.2) = fetched run.2.
Proof.
  intros self run.
  split; [reflexivity|]. split; [reflexivity|].
  split; [vm_compute; reflexivity|]. split; [discriminate|]. split.
  { intros label Hlabel.
    assert (Hends : endswith "notexample.com" ".example.com" = true)
      by (apply endswith_spec; exists label; exact Hlabel).
    vm_compute in Hends. discriminate. }
  repeat split; vm_compute; reflexivity.
Qed.

(** ** C1 *)

(** C1, counterexample.  On a database file that is new, the first batch of
    links breaks the foreign key of [links.to_url]: [insert_links] raises,
    nothing catches it, and [crawl] ends by that exception with three URLs
    still in the deque and one page visited out of a budget of ten.  The
    same happens when the disk fills up before the first [upsert_page]. *)
Lemma storage_failure_ends_the_crawl :
  let run := crawl (Sample.world Sample.no_faults) (Sample.crawler 10 false)
               Database_fresh 0 10 in
  let run' := crawl (Sample.world Sample.disk_full) (Sample.crawler 10 false)
                Sample.earlier_db 0 10 in
  run.1 = Raised Sqlite3Error
  /\ map snd (emitted run.2) = [true; false]
  /\ length (queue run.2) = 3%nat
  /\ size (visited run.2) = 1%nat
  /\ run.1 <> Done
  /\ run'.1 = Raised Sqlite3Error
  /\ map snd (emitted run'.2) = [false]
  /\ run'.1 <> Done.
Proof. vm_compute. repeat split; try reflexivity; discriminate. Qed.

(** C1, the amended statement at the run on the new database: a database
    call failed, so the run ended with a sqlite error. *)
Lemma crawl_ends_done_or_raises_witness :
  let run := crawl (Sample.world Sample.no_faults) (Sample.crawler 10 false)
               Database_fresh 0 10 in
  (exists c, (c, false) ∈ emitted run.2) /\ run.1 = Raised Sqlite3Error.
Proof.
  intros run.
  assert (Hfailed : exists c, (c, false) ∈ emitted run.2).
  { exists (InsertLinks Sample.seed_url [Sample.about_url; Sample.pdf_url]).
    vm_compute. apply list_elem_of_further, list_elem_of_here. }
  split; [exact Hfailed|].
  apply (proj2 (crawl_ends_done_or_raises (Sample.world Sample.no_faults)
                  (Sample.crawler 10 false) Database_fresh 0)).
  exact Hfailed.
Defined.

(** ** C2 *)

(** C2, the code at the failing input.  robots.txt of the sample site is
    answered with 404, so [__init__] leaves the parser unparsed.  The seed
    passes the scheme and host tests, and the crawler without robots
    enforcement allows it; with enforcement [allowed_url] refuses it, and the
    crawl ends without a single request. *)
Theorem robots_unavailable_blocks_the_seed :
  exists self,
    Sample.crawler_with_robots = Ok (self, 1%nat)
    /\ session_get (Sample.world Sample.no_faults) 0 "https://example.com/robots.txt"
       = Sample.html 404 Sample.missing_html
    /\ robot_parser self = Some RobotFileParser_new
    /\ base_url self = "https://example.com"
    /\ in_scope (Sample.world Sample.no_faults) self "https://example.com"
    /\ allowed_url (Sample.world Sample.no_faults) (Sample.crawler 10 false)
         "https://example.com" = Ok true
    /\ allowed_url (Sample.world Sample.no_faults) self "https://example.com"
       = Ok false
    /\ (crawl (Sample.world Sample.no_faults) self Sample.earlier_db 1 10).1 = Done
    /\ fetched (crawl (Sample.world Sample.no_faults) self Sample.earlier_db 1 10).2
       = [].
Proof.
  eexists. split; [vm_compute; reflexivity|].
  split; [vm_compute; reflexivity|]. split; [reflexivity|].
  split; [reflexivity|]. split.
  - exists {| scheme := "https"; netloc := "example.com" |}.
    split; [vm_compute; reflexivity|]. split; [by right|]. split; done.
  - repeat split; vm_compute; reflexivity.
Qed.

(** ** C3 *)

(** C3, counterexample.  Budget 1, delay 0: the home page is fetched, and
    its two eligible link targets are handed to [insert_links] in the same
    iteration.  Over the database of an earlier crawl both edges are stored;
    on a new database the call is made all the same, and raises. *)
Lemma budget_one_emits_link_edges :
  let run := crawl (Sample.world Sample.no_faults) (Sample.crawler 1 false)
               Sample.earlier_db 0 10 in
  let run' := crawl (Sample.world Sample.no_faults) (Sample.crawler 1 false)
                Database_fresh 0 10 in
  delay (Sample.crawler 1 false) = Finite 0
  /\ run.1 = Done
  /\ page_records (emitted run.2) = ["https://example.com"]
  /\ link_edges (emitted run.2)
     ≡ₚ [("https://example.com", "https://example.com/about");
         ("https://example.com", "https://example.com/files/report.pdf")]
  /\ links (db run.2) = link_edges (emitted run.2)
  /\ link_edges (emitted run.2) <> []
  /\ link_edges (emitted run'.2) = link_edges (emitted run.2).
Proof.
  intros run run'. split; [reflexivity|].
  assert (Hedges : link_edges (emitted run.2)
                   = [("https://example.com", "https://example.com/about");
                      ("https://example.com", "https://example.com/files/report.pdf")])
    by (vm_compute; reflexivity).
  rewrite Hedges.
  split; [vm_compute; reflexivity|]. split; [vm_compute; reflexivity|].
  split; [done|]. split; [vm_compute; reflexivity|].
  split; [discriminate | vm_compute; reflexivity].
Qed.

(** C3, the amended statement on the sample site: the run returns, and the
    link from the home page to /about, an eligible target that is not the
    seed, has its edge. *)
Lemma crawl_budget_one_witness :
  let W := Sample.world Sample.no_faults in
  let run := crawl W (Sample.crawler 1 false) Sample.earlier_db 0 1 in
  max_pages (Sample.crawler 1 false) = 1
  /\ run.1 <> Running
  /\ fetched run.2 = ["https://example.com"]
  /\ (length (page_records (emitted run.2)) <= 1)%nat
  /\ ("https://example.com", "https://example.com/about")
     ∈ link_edges (emitted run.2).
Proof.
  intros W run. split; [reflexivity|].
  destruct (crawl_budget_one W (Sample.crawler 1 false) Sample.earlier_db 0 0
              "https://example.com")
    as (Hended & Hfetched & Hone & _ & Hdone);
    [reflexivity | vm_compute; reflexivity | vm_compute; reflexivity |].
  split; [exact Hended|]. split; [exact Hfetched|]. split; [exact Hone|].
  assert (Hst : run.1 = Done) by (vm_compute; reflexivity).
  destruct (Hdone Hst) as (_ & _ & _ & Hedge & _).
  apply Hedge. split; [discriminate|].
  eexists. split; [vm_compute; reflexivity|].
  split; [vm_compute; reflexivity|].
  exists "/about", "https://example.com/about".
  split; [apply list_elem_of_here|].
  repeat split; vm_compute; reflexivity.
Defined.

(** ** C5 *)

(** C5, counterexample.  The seed of this crawler is an ftp URL.  It is
    dequeued, [allowed_url] rejects it, and the iteration ends with the URL
    out of the deque and not in the visited set; so does the whole run. *)
Lemma ineligible_url_is_not_marked_visited :
  let W := Sample.world Sample.no_faults in
  let s := initial_state Sample.ftp_crawler Database_fresh 0 in
  let s' := (crawl_body W Sample.ftp_crawler s).2 in
  let run := crawl W Sample.ftp_crawler Database_fresh 0 10 in
  queue s = ["ftp://example.com"]
  /\ urldefrag W "ftp://example.com" = Some "ftp://example.com"
  /\ allowed_url W Sample.ftp_crawler "ftp://example.com" = Ok false
  /\ queue s' = []
  /\ "ftp://example.com" ∉ visited s'
  /\ run.1 = Done
  /\ "ftp://example.com" ∉ visited run.2.
Proof.
  intros W s s' run.
  assert (Hs' : visited s' = ∅) by (vm_compute; reflexivity).
  assert (Hrun : visited run.2 = ∅) by (vm_compute; reflexivity).
  rewrite Hs', Hrun.
  repeat split; try (vm_compute; reflexivity); set_solver.
Qed.

(** C5, the amended statement at the same iteration. *)
Lemma crawl_visited_set_discipline_witness :
  let W := Sample.world Sample.no_faults in
  let s := initial_state Sample.ftp_crawler Database_fresh 0 in
  let s' := (crawl_body W Sample.ftp_crawler s).2 in
  allowed_url W Sample.ftp_crawler "ftp://example.com" = Ok false
  /\ visited s' = visited s /\ fetched s' = fetched s /\ queue s' = [].
Proof.
  intros W s s'. split; [vm_compute; reflexivity|].
  apply (proj1 (proj2 (crawl_visited_set_discipline W Sample.ftp_crawler s))
           "ftp://example.com" [] "ftp://example.com");
    vm_compute; reflexivity.
Defined.

(** ** C7 *)

(** C7, counterexample.  [--max-pages -1]: the loop condition fails at
    once, the run ends with nothing visited, and 0 is not at most -1. *)
Lemma negative_budget_is_exceeded :
  let run := crawl (Sample.world Sample.no_faults) (Sample.crawler (-1) false)
               Database_fresh 0 10 in
  run.1 = Done
  /\ size (visited run.2) = 0%nat
  /\ ~ (Z.of_nat (size (visited run.2)) <= max_pages (Sample.crawler (-1) false)).
Proof.
  intros run.
  assert (Hsize : size (visited run.2) = 0%nat) by (vm_compute; reflexivity).
  rewrite Hsize. split; [vm_compute; reflexivity|]. split; [done|]. simpl. lia.
Qed.

(** ** C8 *)


(** ** C9 *)

(** From the PDF of the sample site nothing else is reachable. *)
Lemma sample_pdf_reachable (budget : Z) (url : string) :
  reachable (Sample.world Sample.no_faults) (Sample.pdf_crawler budget) url ->
  url = Sample.pdf_url.
Proof.
  induction 1 as [url Hfrag _ | url t response next_url url' _ IH Hget Htarget _ _].
  - vm_compute in Hfrag. by injection Hfrag as <-.
  - subst url. vm_compute in Hget. injection Hget as <-.
    destruct Htarget as [Hhtml _]. vm_compute in Hhtml. discriminate.
Qed.

(** C9, counterexample.  With a budget of -5 the run ends at once with
    nothing visited; one eligible URL is reachable; and 0 is not at most
    min(-5, 1). *)
Lemma negative_budget_breaks_the_work_bound :
  let self := Sample.pdf_crawler (-5) in
  let run := crawl (Sample.world Sample.no_faults) self Database_fresh 0 10 in
  let U : gset string := {[Sample.pdf_url]} in
  run.1 = Done
  /\ (forall url, reachable (Sample.world Sample.no_faults) self url <-> url ∈ U)
  /\ ~ (Z.of_nat (size (visited run.2))
        <= Z.min (max_pages self) (Z.of_nat (size U))).
Proof.
  intros self run U.
  assert (Hsize : size (visited run.2) = 0%nat) by (vm_compute; reflexivity).
  split; [vm_compute; reflexivity|]. split.
  - intros url. split.
    + intros ->%sample_pdf_reachable. set_solver.
    + intros ->%elem_of_singleton.
      apply reach_seed; vm_compute; reflexivity.
  - rewrite Hsize. unfold U. rewrite size_singleton. simpl. lia.
Qed.

(** C9, the amended statement for a crawl seeded on the PDF: one URL is
    reachable, so at most one is visited. *)
Lemma crawl_terminates_within_bounds_witness :
  let self := Sample.pdf_crawler 5 in
  let run := crawl (Sample.world Sample.no_faults) self Sample.earlier_db 0 10 in
  (forall url, reachable (Sample.world Sample.no_faults) self url ->
               url ∈ ({[Sample.pdf_url]} : gset string))
  /\ (size (visited run.2) <= size ({[Sample.pdf_url]} : gset string))%nat.
Proof.
  intros self run.
  assert (Hall : forall url, reachable (Sample.world Sample.no_faults) self url ->
                             url ∈ ({[Sample.pdf_url]} : gset string)).
  { intros url ->%sample_pdf_reachable. set_solver. }
  split; [exact Hall|].
  apply (proj2 (crawl_terminates_within_bounds (Sample.world Sample.no_faults)
                  self Sample.earlier_db 0) 10%nat).
  exact Hall.
Defined.

(** * Further properties of the code *)

(** ** Database *)

Section DatabaseOperations.

Context (W : World).

(** What a returning call does to the tables. *)
Lemma upsert_page_ok (db0 : Database) (t : nat) (url : string) (sc : option Z)
    (ct ti tx : option string) (db' : Database) :
  upsert_page W db0 t url sc ct ti tx = Ok db' ->
  sqlite_fault W t = false
  /\ pages db'
     = <[url := {| row_url := url; row_status_code := sc; row_content_type := ct;
                   row_title := ti; row_text_content := tx;
                   row_fetched_at := utcnow W t |}]> (pages db0)
  /\ links db' = links db0.
Proof.
  unfold upsert_page. destruct (sqlite_fault W t); [done|]. by intros [= <-].
Qed.

Lemma insert_links_ok (db0 : Database) (t : nat) (from_url : string)
    (to_urls : list string) (db' : Database) :
  insert_links W db0 t from_url to_urls = Ok db' ->
  sqlite_fault W t = false
  /\ Forall (fun to_url => is_Some (pages db0 !! from_url)
                           /\ is_Some (pages db0 !! to_url)) to_urls
  /\ pages db' = pages db0
  /\ links db' = (links db0 ++ map (pair from_url) to_urls)%list.
Proof.
  unfold insert_links. destruct (sqlite_fault W t); [done|].
  destruct (forallb (foreign_keys_ok db0 from_url) to_urls) eqn:Hkeys; [|done].
  intros [= <-]. split; [done|]. split; [|done].
  apply Forall_forall. intros to_url Hin.
  rewrite forallb_forall in Hkeys.
  apply list_elem_of_In, Hkeys in Hin. unfold foreign_keys_ok in Hin.
  apply andb_true_iff in Hin as [Hfrom Hto].
  by apply bool_decide_eq_true in Hfrom, Hto.
Qed.

(** The operations keep the foreign keys. *)
Lemma upsert_page_foreign_keys (db0 : Database) (t : nat) (url : string)
    (sc : option Z) (ct ti tx : option string) (db' : Database) :
  upsert_page W db0 t url sc ct ti tx = Ok db' ->
  foreign_keys_hold db0 -> foreign_keys_hold db'.
Proof.
  intros (_ & Hpages & Hlinks)%upsert_page_ok Hkeys.
  unfold foreign_keys_hold in *. rewrite Hlinks, Hpages.
  assert (Hgrow : forall u row, is_Some (pages db0 !! u) ->
                    is_Some (<[url := row]> (pages db0) !! u)).
  { intros u row Hu. destruct (decide (url = u)) as [->|Hne].
    - rewrite lookup_insert_eq. by eexists.
    - by rewrite lookup_insert_ne. }
  eapply Forall_impl; [exact Hkeys|]. intros row [? ?]. auto.
Qed.

Lemma insert_links_foreign_keys (db0 : Database) (t : nat) (from_url : string)
    (to_urls : list string) (db' : Database) :
  insert_links W db0 t from_url to_urls = Ok db' ->
  foreign_keys_hold db0 -> foreign_keys_hold db'.
Proof.
  intros (_ & Hnew & Hpages & Hlinks)%insert_links_ok Hkeys.
  unfold foreign_keys_hold in *. rewrite Hlinks, Hpages.
  apply Forall_app. split; [done|].
  apply Forall_fmap. eapply Forall_impl; [exact Hnew|]. by intros u [? ?].
Qed.

(** X2. The url of a page is unique, and the last write wins.  An
    [upsert_page] adds a row only if the URL had none; a second one for the
    same URL replaces the row of the first, so that the table is as if only
    the second had been made. *)
Theorem upsert_page_last_write_wins (db0 : Database) (t t' : nat) (url : string)
    (sc sc' : option Z) (ct ti tx ct' ti' tx' : option string)
    (db1 db2 : Database) :
  upsert_page W db0 t url sc ct ti tx = Ok db1 ->
  upsert_page W db1 t' url sc' ct' ti' tx' = Ok db2 ->
  size (pages db1)
  = (if decide (is_Some (pages db0 !! url)) then size (pages db0)
     else S (size (pages db0)))
  /\ size (pages db2) = size (pages db1)
  /\ upsert_page W db0 t' url sc' ct' ti' tx' = Ok db2.
Proof.
  unfold upsert_page.
  destruct (sqlite_fault W t); [done|]. destruct (sqlite_fault W t'); [done|].
  intros [= <-] [= <-]. simpl. split; [|split].
  - rewrite map_size_insert. destruct (pages db0 !! url) eqn:Hrow.
    + rewrite decide_True; [done | by eexists].
    + rewrite decide_False; [done | by intros [? ?]].
  - by rewrite map_size_insert, lookup_insert_eq.
  - by rewrite insert_insert_eq.
Qed.

End DatabaseOperations.

(** ** The scope policy and the constructor *)

Section PolicyFurther.

Context (W : World).



(** X5. Including subdomains only widens the scope: a URL allowed by a
    crawler that excludes subdomains is allowed by the same crawler with
    subdomains included. *)
Theorem subdomains_widen_scope (self self' : SiteCrawler) (url : string) :
  include_subdomains self = false ->
  include_subdomains self' = true ->
  parsed_base self' = parsed_base self ->
  robot_parser self' = robot_parser self ->
  user_agent self' = user_agent self ->
  allowed_url W self url = Ok true ->
  allowed_url W self' url = Ok true.
Proof.
  intros Hoff Hon Hbase Hrp Hua. unfold allowed_url, host_rejected.
  rewrite Hoff, Hon, Hbase, Hrp, Hua.
  destruct (urlparse W url) as [parsed|]; [|done].
  destruct (scheme_not_web parsed); [done|].
  destruct (String.eqb (netloc parsed) ""); [done|].
  destruct (String.eqb (netloc parsed) (netloc (parsed_base self))) eqn:Heq;
    [|done].
  apply String.eqb_eq in Heq. rewrite Heq.
  assert (Hsuffix : endswith (netloc (parsed_base self))
                      (netloc (parsed_base self)) = true).
  { apply endswith_spec. by exists "". }
  by rewrite Hsuffix.
Qed.

(** [rstrip("/")] takes slashes off the end, and all of them. *)
Lemma rstrip_slash_tail (s : string) :
  exists tail,
    s = rstrip_slash s ++ tail
    /\ Forall (fun c => c = "/"%char) (String.list_ascii_of_string tail).
Proof.
  induction s as [|c s (tail & Hs & Htail)].
  - exists "". by split; [|constructor].
  - change (rstrip_slash (String c s))
      with (match rstrip_slash s with
            | EmptyString =>
                if Ascii.eqb c "/" then EmptyString else String c EmptyString
            | r => String c r
            end).
    destruct (rstrip_slash s) as [|c' r] eqn:Hr.
    + change (s = tail) in Hs. subst tail.
      destruct (Ascii.eqb c "/") eqn:Hc.
      * apply Ascii.eqb_eq in Hc. exists (String c s). split; [done|].
        change (Forall (fun c0 => c0 = "/"%char)
                  (c :: String.list_ascii_of_string s)).
        by constructor.
      * by exists s.
    + exists tail. split; [|done].
      change (String c s = String c (String c' r ++ tail)). by rewrite <- Hs.
Qed.

Lemma rstrip_slash_no_slash (s prefix : string) :
  rstrip_slash s <> prefix ++ "/".
Proof.
  revert prefix. induction s as [|c s IH]; intros prefix.
  - by destruct prefix.
  - change (rstrip_slash (String c s))
      with (match rstrip_slash s with
            | EmptyString =>
                if Ascii.eqb c "/" then EmptyString else String c EmptyString
            | r => String c r
            end).
    destruct (rstrip_slash s) as [|c' r] eqn:Hr.
    + destruct (Ascii.eqb c "/") eqn:Hc; [by destruct prefix|].
      apply Ascii.eqb_neq in Hc.
      destruct prefix as [|c2 p].
      * change (String c "" <> String "/" ""). congruence.
      * change (String c "" <> String c2 (p ++ "/")).
        intros [= _ Hp]. by destruct p.
    + destruct prefix as [|c2 p].
      * change (String c (String c' r) <> String "/" ""). congruence.
      * change (String c (String c' r) <> String c2 (p ++ "/")).
        intros [= _ Hrest]. by apply (IH p).
Qed.

(** X6. What the constructor sets.  [base_url] is the URL given without its
    trailing slashes, and has none left; [parsed_base] is its parse; there
    is a robots parser exactly when robots are to be respected, and only
    then a request was made. *)
Theorem SiteCrawler_init_sets (tick : nat) (url : string) (budget : Z)
    (pause limit : PyFloat) (subdomains robots : bool) (agent : string)
    (self : SiteCrawler) (tick' : nat) :
  SiteCrawler_init W tick url budget pause limit subdomains robots agent
  = Ok (self, tick') ->
  (exists tail, url = base_url self ++ tail
                /\ Forall (fun c => c = "/"%char) (String.list_ascii_of_string tail))
  /\ endswith (base_url self) "/" = false
  /\ urlparse W (base_url self) = Some (parsed_base self)
  /\ (robot_parser self = None <-> robots = false)
  /\ tick' = (if robots then S tick else tick)
  /\ max_pages self = budget
  /\ include_subdomains self = subdomains.
Proof.
  unfold SiteCrawler_init. intros Hinit.
  destruct (urlparse W (rstrip_slash url)) as [parsed|] eqn:Hparse; [|done].
  assert (Hbase : base_url self = rstrip_slash url
                  /\ parsed_base self = parsed
                  /\ (robot_parser self = None <-> robots = false)
                  /\ tick' = (if robots then S tick else tick)
                  /\ max_pages self = budget
                  /\ include_subdomains self = subdomains).
  { destruct robots.
    - destruct (urljoin W (rstrip_slash url) "/robots.txt"); [|done].
      injection Hinit as <- <-. simpl. by repeat split.
    - injection Hinit as <- <-. simpl. by repeat split. }
  destruct Hbase as (-> & -> & Hrest).
  split; [apply rstrip_slash_tail|]. split; [|by split].
  apply not_true_is_false. intros [p Hp]%endswith_spec.
  by apply rstrip_slash_no_slash in Hp.
Qed.

(** X7. Robots are obeyed.  When the robots request of the constructor is
    answered by an ok response, every URL that the loop fetches is one the
    rules of that response let the agent fetch. *)
Theorem crawl_obeys_robots (tick : nat) (url : string) (budget : Z)
    (pause limit : PyFloat) (subdomains : bool) (agent : string)
    (self : SiteCrawler) (tick' : nat) (robots_url : string) (response : Response)
    (db0 : Database) (fuel : nat) :
  SiteCrawler_init W tick url budget pause limit subdomains true agent
  = Ok (self, tick') ->
  urljoin W (rstrip_slash url) "/robots.txt" = Some robots_url ->
  session_get W tick robots_url = Returned response ->
  resp_ok response = true ->
  Forall (fun u => rules_can_fetch W (resp_text response) agent u = Some true)
         (fetched (crawl W self db0 tick' fuel).2).
Proof.
  unfold SiteCrawler_init. intros Hinit Hjoin Hget Hok.
  destruct (urlparse W (rstrip_slash url)) as [parsed|]; [|done].
  rewrite Hjoin, Hget, Hok in Hinit. injection Hinit as <- <-.
  match goal with
  | |- context [crawl W ?c db0 (S tick) fuel] =>
      destruct (fetch_invariant_crawl W c db0 (S tick) fuel) as [_ _ Hall _]
  end.
  eapply Forall_impl; [exact Hall|]. intros u Hu.
  unfold allowed_url in Hu. simpl in Hu.
  unfold can_fetch, or_value_error in Hu. simpl in Hu.
  repeat case_match; congruence.
Qed.

End PolicyFurther.

(** ** What an iteration does to the database *)

Section Effects.

Context (W : World) (self : SiteCrawler).

(** The invariant rule of the loop, for properties read off the body. *)
Lemma crawl_loop_invariant_body (P : State -> Prop) :
  (forall s r s', loop_cond self s = true -> P s ->
                  crawl_body W self s = (r, s') -> P s') ->
  forall fuel s, P s -> P (crawl_loop W self fuel s).2.
Proof.
  intros Hstep fuel. induction fuel as [|fuel IH]; intros s Hs;
    rewrite crawl_loop_unfold; destruct (loop_cond self s) eqn:Hcond; try done.
  destruct (crawl_body W self s) as [r s1] eqn:Hbody.
  destruct r; [apply IH|]; eauto.
Qed.

(** A call on the database, with what it does to the tables. *)
Lemma db_call_effects (c : SinkCall) (s : State) (r : result unit) (s' : State) :
  db_call W c s = (r, s') ->
  tick s' = S (tick s)
  /\ exists ok,
       emitted s' = (emitted s ++ [(c, ok)])%list
       /\ db_replay W (db s) (tick s) [(c, ok)] (db s')
       /\ r = (if ok then Ok tt else Raise Sqlite3Error).
Proof.
  unfold db_call. fold (run_call W (db s) (tick s) c).
  destruct (run_call W (db s) (tick s) c) as [db1|e] eqn:Hcall;
    intros [= <- <-]; simpl; (split; [done|]).
  - exists true. by rewrite Hcall.
  - exists false. rewrite Hcall. repeat split.
    destruct c; simpl in Hcall; unfold upsert_page, insert_links in Hcall;
      repeat case_match; congruence.
Qed.

(** The calls that end an iteration whose request returned. *)
Lemma store_page_effects (url : string) (page : SinkCall)
    (links_to_store : gset string) (s : State) (r : result unit) (s' : State) :
  (db_call W page;;
   (if bool_decide (links_to_store = ∅) then mret tt
    else db_call W (InsertLinks url (elements links_to_store)));;
   pace W self) s = (r, s') ->
  exists calls,
    emitted s' = (emitted s ++ calls)%list
    /\ db_replay W (db s) (tick s) calls (db s')
    /\ tick s' = (tick s + length calls)%nat
    /\ ((exists ok, calls = [(page, ok)])
        \/ (links_to_store <> ∅
            /\ exists ok, calls = [(page, true);
                                   (InsertLinks url (elements links_to_store), ok)])).
Proof.
  unfold mbind, M_bind, bind, mret, M_ret, ret. intros Hrun.
  pose proof (pace_spec W self) as Hpace.
  destruct (db_call W page s) as [r1 s1] eqn:Hpage.
  apply db_call_effects in Hpage as (Ht1 & ok1 & He1 & Hdb1 & ->).
  destruct ok1.
  2:{ injection Hrun as <- <-. exists [(page, false)].
      split; [done|]. split; [done|]. split; [simpl; lia|]. left. by eexists. }
  destruct (bool_decide (links_to_store = ∅)) eqn:Hempty.
  - apply Hpace in Hrun as [-> Hr]. exists [(page, true)].
    split; [done|]. split; [done|]. split; [simpl; lia|]. left. by eexists.
  - apply bool_decide_eq_false in Hempty.
    destruct (db_call W _ s1) as [r2 s2] eqn:Hlinks.
    apply db_call_effects in Hlinks as (Ht2 & ok2 & He2 & Hdb2 & ->).
    set (batch := InsertLinks url (elements links_to_store)) in *.
    assert (Hreplay : db_replay W (db s) (tick s) [(page, true); (batch, ok2)]
                        (db s2)).
    { simpl in Hdb1 |- *.
      destruct (run_call W (db s) (tick s) page) as [db1|]; [|by destruct Hdb1].
      destruct Hdb1 as [_ <-]. split; [done|]. rewrite <- Ht1. exact Hdb2. }
    destruct ok2.
    + apply Hpace in Hrun as [-> Hr]. exists [(page, true); (batch, true)].
      split; [by rewrite He2, He1, <- app_assoc|]. split; [done|].
      split; [simpl; lia|]. right. split; [done|]. by eexists.
    + injection Hrun as <- <-. exists [(page, true); (batch, false)].
      split; [by rewrite He2, He1, <- app_assoc|]. split; [done|].
      split; [simpl; lia|]. right. split; [done|]. by eexists.
Qed.

(** What one iteration hands to the database, what the database is after
    it, and what the clock shows: one tick for the request, if there was
    one, and one for each call on the database. *)
Lemma crawl_body_effects (s : State) (r : result unit) (s' : State) :
  crawl_body W self s = (r, s') ->
  exists calls,
    emitted s' = (emitted s ++ calls)%list
    /\ Forall (call_of_fetch W self) calls
    /\ db_replay W (db s) (S (tick s)) calls (db s')
    /\ (tick s' + length (fetched s)
        = tick s + length (fetched s') + length calls)%nat.
Proof.
  assert (Hnone : forall s0, db s0 = db s -> emitted s0 = emitted s ->
            (tick s0 + length (fetched s) = tick s + length (fetched s0))%nat ->
            exists calls,
              emitted s0 = (emitted s ++ calls)%list
              /\ Forall (call_of_fetch W self) calls
              /\ db_replay W (db s) (S (tick s)) calls (db s0)
              /\ (tick s0 + length (fetched s)
                  = tick s + length (fetched s0) + length calls)%nat).
  { intros s0 Hd He Ht. exists []. rewrite app_nil_r. simpl.
    split; [done|]. split; [done|]. split; [done|]. lia. }
  unfold crawl_body. unfold_monad. intros Hrun.
  destruct (queue s) as [|url0 rest] eqn:Hqueue;
    [injection Hrun as <- <-; by apply Hnone|].
  simpl in Hrun.
  destruct (urldefrag W url0) as [url|] eqn:Hfrag; simpl in Hrun;
    [|injection Hrun as <- <-; by apply Hnone].
  destruct (bool_decide (url ∈ visited s)) eqn:Hseen;
    [injection Hrun as <- <-; by apply Hnone|].
  destruct (allowed_url W self url) as [[|]|e] eqn:Hallowed; simpl in Hrun;
    [ | injection Hrun as <- <-; by apply Hnone
      | injection Hrun as <- <-; by apply Hnone ].
  assert (Hone : (S (tick s) + length (fetched s)
                  = tick s + length (fetched s ++ [url]))%nat).
  { rewrite length_app. simpl. lia. }
  destruct (session_get W (tick s) url) as [response|] eqn:Hget.
  - destruct (str_contains "text/html" (content_type_of response)) eqn:Hhtml.
    + destruct (parser_rejects W (resp_text response)); simpl in Hrun;
        [injection Hrun as <- <-; by apply Hnone|].
      destruct (scan_links W self url _ ∅ _) as [[links|e] s1] eqn:Hscan;
        apply scan_links_spec in Hscan; simpl in Hscan;
        destruct Hscan as (Hv & Hd & Ht & Hf & He & added & Hq & Hadded & Hr).
      2:{ injection Hrun as <- <-. apply Hnone; [done | done |].
          by rewrite Ht, Hf. }
      subst links. rewrite (right_id_L ∅ (∪)) in Hrun.
      pose proof (store_page_spec W self url _ _ _ _ _ Hrun) as (_ & _ & Hf' & _).
      pose proof (store_page_effects url
                    (UpsertPage url (Some (resp_status_code response))
                       (Some (content_type_of response))
                       (page_title W (resp_text response))
                       (Some (extract_text W (resp_text response))))
                    (list_to_set added) s1 r s' Hrun)
        as (calls & He' & Hdb' & Ht' & Hcalls).
      exists calls. rewrite He', He, <- Hd, <- Ht. split; [done|].
      split; [|split; [done|]].
      2:{ rewrite Ht', Hf', Hf, Ht. lia. }
      assert (Hpage : call_of_fetch W self
                        (UpsertPage url (Some (resp_status_code response))
                           (Some (content_type_of response))
                           (page_title W (resp_text response))
                           (Some (extract_text W (resp_text response))),
                         true)).
      { right. exists (tick s), response. by rewrite Hhtml. }
      destruct Hcalls as [[ok ->] | (Hne & ok & ->)].
      * apply Forall_singleton. by destruct ok.
      * apply Forall_cons. split; [done|]. apply Forall_singleton. split.
        -- exists (tick s), response. split; [done|]. split; [done|].
           apply Forall_forall. intros u Hu.
           apply elem_of_elements, elem_of_list_to_set in Hu.
           rewrite Forall_forall in Hadded. by split; [|apply Hadded].
        -- simpl. intros Hu.
           apply elem_of_elements, elem_of_list_to_set in Hu.
           rewrite Forall_forall in Hadded. apply Hadded in Hu as [Hu _].
           set_solver.
    + match type of Hrun with
      | context [db_call W (UpsertPage _ _ _ _ _) ?s0] =>
          pose proof (store_page_spec W self url
                        (UpsertPage url (Some (resp_status_code response))
                           (Some (content_type_of response)) None None)
                        ∅ s0 r s' Hrun) as (_ & _ & Hf' & _);
          pose proof (store_page_effects url
                        (UpsertPage url (Some (resp_status_code response))
                           (Some (content_type_of response)) None None)
                        ∅ s0 r s' Hrun)
            as (calls & He' & Hdb' & Ht' & Hcalls)
      end.
      simpl in He', Hdb', Ht', Hf'. exists calls. split; [done|].
      split; [|split; [done|]].
      2:{ rewrite Ht', Hf'. lia. }
      destruct Hcalls as [[ok ->] | (Hne & _)]; [|done].
      apply Forall_singleton. right. exists (tick s), response.
      by rewrite Hhtml.
  - pose proof (db_call_spec W _ _ _ _ Hrun) as (_ & _ & Hf' & _).
    apply db_call_effects in Hrun as (Ht' & ok & He' & Hdb' & _).
    simpl in He', Hdb', Ht', Hf'. exists [(UpsertPage url None None None None, ok)].
    split; [done|]. split; [|split; [done|]].
    2:{ rewrite Ht', Hf'. simpl. lia. }
    apply Forall_singleton. left. by exists (tick s).
Qed.

End Effects.

(** ** Replaying the calls *)

Section Replay.

Context (W : World).

Lemma stored_edges_app (calls calls' : list (SinkCall * bool)) :
  stored_edges (calls ++ calls') = (stored_edges calls ++ stored_edges calls')%list.
Proof. unfold stored_edges, link_edges. by rewrite filter_app, flat_map_app. Qed.

Lemma page_records_app (calls calls' : list (SinkCall * bool)) :
  page_records (calls ++ calls') = (page_records calls ++ page_records calls')%list.
Proof. unfold page_records. by rewrite flat_map_app. Qed.

(** A property of the tables that both operations keep is kept by a replay. *)
Lemma db_replay_invariant (Q : Database -> Prop) :
  (forall db0 t c db1, run_call W db0 t c = Ok db1 -> Q db0 -> Q db1) ->
  forall calls db0 t db', db_replay W db0 t calls db' -> Q db0 -> Q db'.
Proof.
  intros Hstep calls. induction calls as [|[c ok] rest IH]; intros db0 t db';
    simpl; [by intros ->|].
  destruct (run_call W db0 t c) as [db1|e] eqn:Hcall.
  - intros [_ Hrest] Hq. eapply IH; [exact Hrest|]. by eapply Hstep.
  - by intros (_ & _ & ->).
Qed.

(** The table of links after a replay. *)
Lemma db_replay_links (calls : list (SinkCall * bool)) :
  forall db0 t db',
    db_replay W db0 t calls db' ->
    links db' = (links db0 ++ stored_edges calls)%list.
Proof.
  induction calls as [|[c ok] rest IH]; intros db0 t db'; simpl.
  - intros ->. by rewrite app_nil_r.
  - destruct (run_call W db0 t c) as [db1|e] eqn:Hcall.
    + intros [-> Hrest]. apply IH in Hrest. rewrite Hrest.
      change ((c, true) :: rest) with ([(c, true)] ++ rest)%list.
      rewrite stored_edges_app, app_assoc. f_equal.
      unfold stored_edges. rewrite filter_cons_True by done. simpl.
      destruct c; simpl in Hcall.
      * apply upsert_page_ok in Hcall as (_ & _ & ->). by rewrite app_nil_r.
      * apply insert_links_ok in Hcall as (_ & _ & _ & ->). by rewrite app_nil_r.
    + intros (-> & -> & ->). unfold stored_edges.
      rewrite filter_cons_False by done. by rewrite app_nil_r.
Qed.

(** The row of a URL after a replay: as before, or that of a page record of
    the replay that returned. *)
Lemma db_replay_pages (calls : list (SinkCall * bool)) (url : string) :
  forall db0 t db',
    db_replay W db0 t calls db' ->
    pages db' !! url = pages db0 !! url
    \/ exists sc ct ti tx t',
         (UpsertPage url sc ct ti tx, true) ∈ calls
         /\ pages db' !! url
            = Some {| row_url := url; row_status_code := sc; row_content_type := ct;
                      row_title := ti; row_text_content := tx;
                      row_fetched_at := utcnow W t' |}.
Proof.
  induction calls as [|[c ok] rest IH]; intros db0 t db'; simpl.
  - intros ->. by left.
  - destruct (run_call W db0 t c) as [db1|e] eqn:Hcall; [|intros (_ & _ & ->); by left].
    intros [-> Hrest].
    destruct (IH _ _ _ Hrest) as [Hsame | (sc & ct & ti & tx & t' & Hin & Hrow)].
    2:{ right. exists sc, ct, ti, tx, t'. split; [by apply list_elem_of_further | done]. }
    rewrite Hsame. destruct c as [u sc ct ti tx | from_url to_urls]; simpl in Hcall.
    + apply upsert_page_ok in Hcall as (_ & -> & _).
      destruct (decide (u = url)) as [->|Hne].
      * right. exists sc, ct, ti, tx, t.
        split; [apply list_elem_of_here | apply lookup_insert_eq].
      * left. by apply lookup_insert_ne.
    + apply insert_links_ok in Hcall as (_ & _ & -> & _). by left.
Qed.

(** A page record of the replay that returned left a row. *)
Lemma db_replay_written (calls : list (SinkCall * bool)) (url : string) :
  forall db0 t db' sc ct ti tx,
    db_replay W db0 t calls db' ->
    (UpsertPage url sc ct ti tx, true) ∈ calls ->
    exists sc' ct' ti' tx' t',
      (UpsertPage url sc' ct' ti' tx', true) ∈ calls
      /\ pages db' !! url
         = Some {| row_url := url; row_status_code := sc'; row_content_type := ct';
                   row_title := ti'; row_text_content := tx';
                   row_fetched_at := utcnow W t' |}.
Proof.
  induction calls as [|[c ok] rest IH]; intros db0 t db' sc ct ti tx; simpl.
  - intros _ Hin. by apply elem_of_nil in Hin.
  - destruct (run_call W db0 t c) as [db1|e] eqn:Hcall.
    2:{ intros (-> & -> & ->) Hin. apply list_elem_of_singleton in Hin. congruence. }
    intros [-> Hrest] Hin.
    destruct (db_replay_pages rest url _ _ _ Hrest)
      as [Hsame | (sc' & ct' & ti' & tx' & t' & Hin' & Hrow)].
    2:{ exists sc', ct', ti', tx', t'. split; [by apply list_elem_of_further | done]. }
    apply elem_of_cons in Hin as [[= <-] | Hin].
    + simpl in Hcall. apply upsert_page_ok in Hcall as (_ & Hpages & _).
      exists sc, ct, ti, tx, t. split; [apply list_elem_of_here|].
      rewrite Hsame, Hpages. apply lookup_insert_eq.
    + destruct (IH _ _ _ _ _ _ _ Hrest Hin) as (sc' & ct' & ti' & tx' & t' & Hin' & Hrow).
      exists sc', ct', ti', tx', t'. split; [by apply list_elem_of_further | done].
Qed.

(** A replay without page record for a URL leaves its row alone. *)
Lemma db_replay_untouched (calls : list (SinkCall * bool)) (url : string) :
  forall db0 t db',
    db_replay W db0 t calls db' ->
    url ∉ page_records calls ->
    pages db' !! url = pages db0 !! url.
Proof.
  intros db0 t db' Hreplay Hout.
  destruct (db_replay_pages calls url _ _ _ Hreplay)
    as [Hsame | (sc & ct & ti & tx & t' & Hin & _)]; [done|].
  exfalso. apply Hout. unfold page_records.
  apply list_elem_of_In, in_flat_map. eexists. split; [by apply list_elem_of_In|].
  simpl. by left.
Qed.

(** In a replay that has no two page records for one URL, the row of a page
    record that returned holds its fields and the time of its call: the
    call at index [i] is made at tick [t + i]. *)
Lemma db_replay_stamp (calls : list (SinkCall * bool)) (url : string) :
  forall db0 t db' i sc ct ti tx,
    db_replay W db0 t calls db' ->
    NoDup (page_records calls) ->
    calls !! i = Some (UpsertPage url sc ct ti tx, true) ->
    pages db' !! url
    = Some {| row_url := url; row_status_code := sc; row_content_type := ct;
              row_title := ti; row_text_content := tx;
              row_fetched_at := utcnow W (t + i) |}.
Proof.
  induction calls as [|[c ok] rest IH]; intros db0 t db' i sc ct ti tx; simpl;
    [done|].
  destruct (run_call W db0 t c) as [db1|e] eqn:Hcall.
  - intros [-> Hrest] Hnd Hi. destruct i as [|i]; simpl in Hi.
    + injection Hi as ->. simpl in Hcall, Hnd.
      apply NoDup_cons in Hnd as [Hnot _].
      rewrite (db_replay_untouched rest url _ _ _ Hrest Hnot).
      apply upsert_page_ok in Hcall as (_ & -> & _).
      rewrite Nat.add_0_r. apply lookup_insert_eq.
    + rewrite <- Nat.add_succ_comm. eapply IH; [exact Hrest | | exact Hi].
      destruct c; simpl in Hnd; [by apply NoDup_cons in Hnd as [_ ?] | done].
  - intros (-> & -> & ->) _ Hi. destruct i; simpl in Hi; [congruence | done].
Qed.

End Replay.

(** ** Runs: what is recorded and what is stored *)

Section RunsFurther.

Context (W : World) (self : SiteCrawler) (db0 : Database) (tick0 : nat).

Lemma call_of_fetch_crawl (fuel : nat) :
  Forall (call_of_fetch W self) (emitted (crawl W self db0 tick0 fuel).2).
Proof.
  apply (crawl_loop_invariant_body W self
           (fun s => Forall (call_of_fetch W self) (emitted s))).
  - intros s r s' _ Hs (calls & -> & Hcalls & _)%crawl_body_effects.
    by apply Forall_app.
  - constructor.
Qed.

(** X8. Where the calls on the database come from.  At every point of a
    run, a page record has its four optional fields absent if the request
    raised; otherwise it carries the status code and the content type of the
    response.  If that content type contains text/html, its text is the text
    extracted from the page and its title is the stripped title of the page,
    absent when the page has none; if not, title and text are both absent.
    A batch of links is made of link targets of a page fetched as HTML, and
    never holds the page itself. *)
Theorem crawl_calls_come_from_fetches (fuel : nat) :
  Forall (call_of_fetch W self) (emitted (crawl W self db0 tick0 fuel).2).
Proof. apply call_of_fetch_crawl. Qed.


(** One page record per fetch, the last fetch apart if the run was ended
    between the request and [upsert_page]. *)
Lemma page_records_crawl_loop (fuel : nat) :
  forall s,
    page_records (emitted s) = fetched s ->
    let st := (crawl_loop W self fuel s).1 in
    let s' := (crawl_loop W self fuel s).2 in
    page_records (emitted s') = fetched s'
    \/ ((st = Raised ValueError \/ st = Raised ParserRejectedMarkup)
        /\ exists url, fetched s' = (page_records (emitted s') ++ [url])%list).
Proof.
  induction fuel as [|fuel IH]; intros s Hs;
    rewrite crawl_loop_unfold; destruct (loop_cond self s) eqn:Hcond;
    try (by left).
  destruct (crawl_body W self s) as [r s1] eqn:Hbody.
  apply crawl_body_iteration in Hbody.
  assert (Hstep : page_records (emitted s1) = fetched s1
                  \/ ((r = Raise ValueError \/ r = Raise ParserRejectedMarkup)
                      /\ exists url,
                           fetched s1 = (page_records (emitted s1) ++ [url])%list)).
  { destruct Hbody as [_ _ _ _ Hf' He' _
                      | url0 rest url added calls _ _ _ _ _ Hf' _ _ He' Hcalls].
    - left. by rewrite He', Hf'.
    - rewrite He', Hf', page_records_app, Hs. unfold calls_of_page in Hcalls.
      destruct (session_get W (tick s) url) as [response|].
      + destruct Hcalls as [_ [[-> Hr] | (title & text & Hcalls)]].
        { right. split; [done|]. exists url. by rewrite app_nil_r. }
        simpl in Hcalls. left.
        by destruct Hcalls as [[-> _] | [(-> & _) | (ok & -> & _)]].
      + left. by destruct Hcalls as [_ (ok & -> & _)]. }
  destruct r as [[]|e]; simpl.
  - destruct Hstep as [Hstep | [[?|?] _]]; [by apply IH | done | done].
  - destruct Hstep as [Hstep | [[[= ->]|[= ->]] Hurl]];
      [by left | right; auto | right; auto].
Qed.

(** X10. One page record per fetched URL.  At every point of a run the URLs
    of the page records are the URLs fetched, in the same order, or all of
    them but the last: at most the last URL fetched has no record.  A run
    that is still going, has returned, or was ended by a sqlite error has a
    record for every URL fetched. *)
Theorem crawl_records_every_fetch (fuel : nat) :
  let st := (crawl W self db0 tick0 fuel).1 in
  let s' := (crawl W self db0 tick0 fuel).2 in
  (page_records (emitted s') = fetched s'
   \/ exists url, fetched s' = (page_records (emitted s') ++ [url])%list)
  /\ (st = Running \/ st = Done \/ st = Raised Sqlite3Error ->
      page_records (emitted s') = fetched s').
Proof.
  intros st s'.
  pose proof (page_records_crawl_loop fuel (initial_state self db0 tick0) eq_refl)
    as Hrec.
  fold (crawl W self db0 tick0 fuel) in Hrec. simpl in Hrec. fold st s' in Hrec.
  split.
  - destruct Hrec as [Hrec | [_ Hrec]]; auto.
  - intros Hst. destruct Hrec as [Hrec | [Hraised _]]; [done|].
    destruct Hst as [Hst | [Hst | Hst]]; rewrite Hst in Hraised;
      by destruct Hraised.
Qed.

(** X11. The table of links only grows.  At every point of a run it is the
    table found at the start followed by the edges of the batches whose call
    returned, in the order of the calls. *)
Theorem crawl_appends_links (fuel : nat) :
  let s' := (crawl W self db0 tick0 fuel).2 in
  links (db s') = (links db0 ++ stored_edges (emitted s'))%list.
Proof.
  apply (crawl_loop_invariant_body W self
           (fun s => links (db s) = (links db0 ++ stored_edges (emitted s))%list)).
  - intros s r s' _ Hs (calls & -> & _ & Hreplay & _)%crawl_body_effects.
    apply db_replay_links in Hreplay.
    by rewrite Hreplay, Hs, stored_edges_app, app_assoc.
  - unfold stored_edges. simpl. by rewrite app_nil_r.
Qed.

Lemma db_pages_crawl (fuel : nat) (url : string) :
  let s' := (crawl W self db0 tick0 fuel).2 in
  (url ∉ page_records (emitted s') -> pages (db s') !! url = pages db0 !! url)
  /\ (is_Some (pages db0 !! url) -> is_Some (pages (db s') !! url))
  /\ (forall sc ct ti tx,
        (UpsertPage url sc ct ti tx, true) ∈ emitted s' ->
        exists sc' ct' ti' tx' t',
          (UpsertPage url sc' ct' ti' tx', true) ∈ emitted s'
          /\ pages (db s') !! url
             = Some {| row_url := url; row_status_code := sc';
                       row_content_type := ct'; row_title := ti';
                       row_text_content := tx'; row_fetched_at := utcnow W t' |}).
Proof.
  apply (crawl_loop_invariant_body W self
    (fun s =>
       (url ∉ page_records (emitted s) -> pages (db s) !! url = pages db0 !! url)
       /\ (is_Some (pages db0 !! url) -> is_Some (pages (db s) !! url))
       /\ (forall sc ct ti tx,
             (UpsertPage url sc ct ti tx, true) ∈ emitted s ->
             exists sc' ct' ti' tx' t',
               (UpsertPage url sc' ct' ti' tx', true) ∈ emitted s
               /\ pages (db s) !! url
                  = Some {| row_url := url; row_status_code := sc';
                            row_content_type := ct'; row_title := ti';
                            row_text_content := tx';
                            row_fetched_at := utcnow W t' |}))).
  - intros s r s' _ (Hout & Hkept & Hin) (calls & -> & _ & Hreplay & _)%crawl_body_effects.
    split; [|split].
    + rewrite page_records_app. intros Hnot.
      rewrite (db_replay_untouched W calls url _ _ _ Hreplay) by set_solver.
      apply Hout. set_solver.
    + intros Hsome. apply Hkept in Hsome.
      destruct (db_replay_pages W calls url _ _ _ Hreplay)
        as [-> | (? & ? & ? & ? & ? & _ & ->)]; [done | by eexists].
    + intros sc ct ti tx Hcall.
      destruct (db_replay_pages W calls url _ _ _ Hreplay)
        as [Hsame | (sc' & ct' & ti' & tx' & t' & Hnew & Hrow)].
      2:{ exists sc', ct', ti', tx', t'. split; [set_solver | done]. }
      apply elem_of_app in Hcall as [Hold | Hnew].
      * destruct (Hin _ _ _ _ Hold) as (sc' & ct' & ti' & tx' & t' & Hold' & Hrow).
        exists sc', ct', ti', tx', t'. split; [set_solver | by rewrite Hsame].
      * destruct (db_replay_written W calls url _ _ _ _ _ _ _ Hreplay Hnew)
          as (sc' & ct' & ti' & tx' & t' & Hnew' & Hrow).
        exists sc', ct', ti', tx', t'. split; [set_solver | done].
  - simpl. split; [done|]. split; [done|].
    intros sc ct ti tx Hcall. by apply elem_of_nil in Hcall.
Qed.

(** X12. The table of pages.  At every point of a run, no row found at the
    start has been deleted, and the row of a URL that the loop has not
    fetched is as it was found. *)
Theorem crawl_keeps_other_pages (fuel : nat) (url : string) :
  let s' := (crawl W self db0 tick0 fuel).2 in
  (is_Some (pages db0 !! url) -> is_Some (pages (db s') !! url))
  /\ (url ∉ fetched s' -> pages (db s') !! url = pages db0 !! url).
Proof.
  intros s'. destruct (db_pages_crawl fuel url) as (Hout & Hkept & _).
  split; [done|]. intros Hnot. apply Hout. intros Hrec. apply Hnot.
  pose proof (page_records_fetched W self s' _
                (call_invariant_crawl W self db0 tick0 fuel)) as Hsub.
  rewrite Forall_forall in Hsub. by apply Hsub.
Qed.

(** X13. The foreign keys hold all along.  If both ends of every row of
    links are stored pages when the run starts, they are at every point of
    the run. *)
Theorem crawl_keeps_foreign_keys (fuel : nat) :
  foreign_keys_hold db0 ->
  foreign_keys_hold (db (crawl W self db0 tick0 fuel).2).
Proof.
  intros Hkeys.
  apply (crawl_loop_invariant_body W self (fun s => foreign_keys_hold (db s)));
    [|done].
  intros s r s' _ Hs (calls & _ & _ & Hreplay & _)%crawl_body_effects.
  eapply (db_replay_invariant W foreign_keys_hold); [|exact Hreplay|exact Hs].
  intros d t [url sc ct ti tx | from_url to_urls] d1 Hcall; simpl in Hcall.
  - by eapply upsert_page_foreign_keys.
  - by eapply insert_links_foreign_keys.
Qed.

(** The page records of an iteration are for the URL it fetched. *)
Lemma calls_of_page_records (url : string) (outcome : FetchOutcome)
    (added : list string) (r : result unit) (calls : list (SinkCall * bool)) :
  calls_of_page W self url outcome added r calls ->
  page_records calls = [] \/ page_records calls = [url].
Proof.
  unfold calls_of_page. destruct outcome as [response|].
  - intros [_ [[-> _] | (title & text & Hcalls)]]; [by left|].
    simpl in Hcalls. right.
    by destruct Hcalls as [[-> _] | [(-> & _) | (ok & -> & _)]].
  - intros [_ (ok & -> & _)]. by right.
Qed.

(** The clock of a run counts the requests of the loop and its calls on the
    database; the row of a page record that returned holds the time of that
    call. *)
Lemma stamps_crawl (fuel : nat) :
  let s' := (crawl W self db0 tick0 fuel).2 in
  tick s' = (tick0 + length (fetched s') + length (emitted s'))%nat
  /\ forall i url sc ct ti tx,
       emitted s' !! i = Some (UpsertPage url sc ct ti tx, true) ->
       exists k,
         fetched s' !! k = Some url
         /\ pages (db s') !! url
            = Some {| row_url := url; row_status_code := sc;
                      row_content_type := ct; row_title := ti;
                      row_text_content := tx;
                      row_fetched_at := utcnow W (tick0 + S k + i) |}.
Proof.
  intros s'.
  cut (fetch_invariant W self s'
       /\ tick s' = (tick0 + length (fetched s') + length (emitted s'))%nat
       /\ forall i url sc ct ti tx,
            emitted s' !! i = Some (UpsertPage url sc ct ti tx, true) ->
            exists k,
              fetched s' !! k = Some url
              /\ pages (db s') !! url
                 = Some {| row_url := url; row_status_code := sc;
                           row_content_type := ct; row_title := ti;
                           row_text_content := tx;
                           row_fetched_at := utcnow W (tick0 + S k + i) |});
    [by intros (_ & ? & ?)|].
  apply (crawl_loop_invariant_body W self
    (fun s =>
       fetch_invariant W self s
       /\ tick s = (tick0 + length (fetched s) + length (emitted s))%nat
       /\ forall i url sc ct ti tx,
            emitted s !! i = Some (UpsertPage url sc ct ti tx, true) ->
            exists k,
              fetched s !! k = Some url
              /\ pages (db s) !! url
                 = Some {| row_url := url; row_status_code := sc;
                           row_content_type := ct; row_title := ti;
                           row_text_content := tx;
                           row_fetched_at := utcnow W (tick0 + S k + i) |})).
  2:{ split; [apply fetch_invariant_initial|]. split; [simpl; lia|].
      intros i url sc ct ti tx Hi. by destruct i. }
  intros s r s1 _ (Hinv & Htick & Hstamp) Hbody.
  pose proof (crawl_body_iteration W self _ _ _ Hbody) as Hiter.
  apply crawl_body_effects in Hbody as (calls & He & _ & Hreplay & Hclock).
  split; [by eapply fetch_invariant_step|]. split.
  { rewrite He, length_app. lia. }
  assert (Hcalls : (calls = [] /\ fetched s1 = fetched s)
                   \/ exists url,
                        url ∉ fetched s
                        /\ fetched s1 = (fetched s ++ [url])%list
                        /\ (page_records calls = [] \/ page_records calls = [url])).
  { destruct Hiter as [_ _ _ _ Hf' He' _
                      | url0 rest url added calls' _ _ Hnew _ _ Hf' _ _ He' Hcalls].
    - left. split; [|done]. rewrite He' in He.
      rewrite <- (app_nil_r (emitted s)) in He at 1.
      by apply app_inv_head in He.
    - right. exists url. rewrite He' in He. apply app_inv_head in He as <-.
      split.
      + destruct Hinv as [Hv _ _ _]. rewrite Hv in Hnew.
        by rewrite elem_of_list_to_set in Hnew.
      + split; [done|]. by eapply calls_of_page_records. }
  intros i url sc ct ti tx Hi. rewrite He in Hi.
  apply lookup_app_Some in Hi as [Hold | [Hlen Hnew]].
  - destruct (Hstamp _ _ _ _ _ _ Hold) as (k & Hk & Hrow).
    exists k. destruct Hcalls as [[-> Hf'] | (u & Hu & Hf' & Hrec)].
    + simpl in Hreplay. by rewrite Hf', Hreplay.
    + split; [rewrite Hf'; by apply lookup_app_l_Some|].
      rewrite (db_replay_untouched W calls url _ _ _ Hreplay); [done|].
      apply list_elem_of_lookup_2 in Hk.
      destruct Hrec as [-> | ->]; set_solver.
  - destruct Hcalls as [[-> _] | (u & Hu & Hf' & Hrec)]; [done|].
    assert (Hin : url ∈ page_records calls).
    { apply list_elem_of_lookup_2 in Hnew. unfold page_records.
      apply list_elem_of_In, in_flat_map. eexists.
      split; [by apply list_elem_of_In|]. simpl. by left. }
    assert (Hnd : NoDup (page_records calls)).
    { destruct Hrec as [-> | ->]; [constructor | apply NoDup_singleton]. }
    assert (url = u) as -> by (destruct Hrec as [Hrec | Hrec];
                               rewrite Hrec in Hin; set_solver).
    exists (length (fetched s)). split; [rewrite Hf'; apply list_lookup_middle; done|].
    rewrite (db_replay_stamp W calls u _ _ _ _ _ _ _ _ Hreplay Hnd Hnew).
    do 3 f_equal. lia.
Qed.

(** X14. After a crawl that returned, every URL fetched has its row.  The
    clock of a run counts the requests of the loop and its calls on the
    database.  For the URL fetched at position [k], one of the calls on the
    database, at some position [i], is a page record for it that returned,
    and the pages table holds for the URL the fields of that record and the
    time of that call, which [k + 1] requests and [i] calls precede. *)
Theorem crawl_stores_every_fetch (fuel : nat) (k : nat) (url : string) :
  let st := (crawl W self db0 tick0 fuel).1 in
  let s' := (crawl W self db0 tick0 fuel).2 in
  st = Done ->
  fetched s' !! k = Some url ->
  tick s' = (tick0 + length (fetched s') + length (emitted s'))%nat
  /\ exists sc ct ti tx i,
       emitted s' !! i = Some (UpsertPage url sc ct ti tx, true)
       /\ pages (db s') !! url
          = Some {| row_url := url; row_status_code := sc; row_content_type := ct;
                    row_title := ti; row_text_content := tx;
                    row_fetched_at := utcnow W (tick0 + S k + i) |}.
Proof.
  intros st s' Hdone Hk.
  destruct (stamps_crawl fuel) as [Htick Hstamp]. fold s' in Htick, Hstamp.
  split; [done|].
  pose proof (page_records_crawl_loop fuel (initial_state self db0 tick0) eq_refl)
    as Hrec.
  pose proof (crawl_loop_calls W self fuel (initial_state self db0 tick0)
                (Forall_nil_2 _)) as Hok.
  fold (crawl W self db0 tick0 fuel) in Hrec, Hok. simpl in Hrec.
  fold st s' in Hrec, Hok. rewrite Hdone in Hrec, Hok.
  destruct Hrec as [Hrec | [[?|?] _]]; [|done|done].
  pose proof (list_elem_of_lookup_2 _ _ _ Hk) as Hurl.
  rewrite <- Hrec in Hurl. unfold page_records in Hurl.
  apply list_elem_of_In, in_flat_map in Hurl as ([c ok] & Hin & Hc).
  apply list_elem_of_In in Hin. simpl in Hc.
  destruct c as [u sc ct ti tx|]; [|done]. destruct Hc as [->|[]].
  rewrite Forall_forall in Hok. pose proof (Hok _ Hin) as Htrue.
  simpl in Htrue. subst ok.
  apply list_elem_of_lookup_1 in Hin as [i Hi].
  destruct (Hstamp _ _ _ _ _ _ Hi) as (k' & Hk' & Hrow).
  assert (k' = k) as ->.
  { eapply NoDup_lookup; [|exact Hk'|exact Hk].
    by destruct (fetch_invariant_crawl W self db0 tick0 fuel). }
  by exists sc, ct, ti, tx, i.
Qed.

End RunsFurther.

(** ** Runs: how they end, and main *)

Section EndingsFurther.

Context (W : World).

(** X16. Stopping with work left.  A crawl that returns with URLs still in
    the deque has visited exactly as many URLs as the budget allows (none for
    a negative budget). *)
Theorem crawl_stops_at_the_budget (self : SiteCrawler) (db0 : Database)
    (tick0 fuel : nat) :
  let st := (crawl W self db0 tick0 fuel).1 in
  let s' := (crawl W self db0 tick0 fuel).2 in
  st = Done ->
  queue s' <> [] ->
  Z.of_nat (size (visited s')) = Z.max 0 (max_pages self)
  /\ Z.of_nat (length (fetched s')) = Z.max 0 (max_pages self).
Proof.
  intros st s' Hdone Hleft.
  pose proof (crawl_loop_status W self fuel (initial_state self db0 tick0)) as Hst.
  fold (crawl W self db0 tick0 fuel) in Hst. fold st s' in Hst.
  rewrite Hdone in Hst.
  pose proof (visited_count_crawl W self db0 tick0 fuel) as Hle. fold s' in Hle.
  pose proof (fetch_invariant_size W self s'
                (fetch_invariant_crawl W self db0 tick0 fuel)) as Hlen.
  apply andb_false_iff in Hst as [Hq | Hb].
  - by apply negb_false_iff, bool_decide_eq_true in Hq.
  - apply Z.ltb_ge in Hb. rewrite <- Hlen. lia.
Qed.

(** The part of a string before its first semicolon has none. *)
Lemma before_semicolon_has_none (s : string) :
  str_contains ";" (before_semicolon s) = false.
Proof.
  unfold before_semicolon. induction s as [|c s IH]; [done|].
  change (take_until (Ascii.eqb ";") (String c s))
    with (if Ascii.eqb ";" c then EmptyString
          else String c (take_until (Ascii.eqb ";") s)).
  destruct (Ascii.eqb ";" c) eqn:Hc; [done|].
  apply Ascii.eqb_neq in Hc.
  change (str_contains ";" (String c (take_until (Ascii.eqb ";") s)))
    with (String.prefix ";" (String c (take_until (Ascii.eqb ";") s))
          || str_contains ";" (take_until (Ascii.eqb ";") s)).
  rewrite IH, orb_false_r. cbn [String.prefix].
  by destruct (ascii_dec ";"%char c).
Qed.

(** X17. Content types are stored without parameters.  At every point of a
    run, the content type of a page record, when there is one, holds no
    semicolon: what follows the first one in the header is dropped. *)
Theorem crawl_content_types_have_no_parameters (self : SiteCrawler)
    (db0 : Database) (tick0 fuel : nat) :
  Forall (fun c => match fst c with
                   | UpsertPage _ _ (Some content_type) _ _ =>
                       str_contains ";" content_type = false
                   | _ => True
                   end)
         (emitted (crawl W self db0 tick0 fuel).2).
Proof.
  eapply Forall_impl; [apply call_of_fetch_crawl|].
  intros [c ok]. unfold call_of_fetch. simpl.
  destruct c as [url sc [ct|] ti tx|]; try done.
  intros [(_ & _ & _ & [=] & _) | (_ & response & _ & _ & [= ->] & _)].
  apply before_semicolon_has_none.
Qed.

(** X18. main and the connection.  [main] always ends.  When it has ended,
    the connection is closed exactly if the crawler could be constructed:
    [crawl] runs under [try ... finally], so the database is closed whether
    [crawl] returns (exit status 0) or raises, but an exception of the
    constructor leaves [main] before the [try], with the database as found
    and the connection open.  No row of pages found at the start is lost. *)
Theorem main_closes_the_database (args : Args) (file : Database) (tick0 : nat) :
  (exists fuel, (main W args file tick0 fuel).1 <> Running)
  /\ forall fuel,
       let st := (main W args file tick0 fuel).1 in
       let conn := (main W args file tick0 fuel).2 in
       st <> Running ->
       (conn_closed conn = true
        <-> exists crawler t,
              SiteCrawler_init W tick0 (arg_url args) (arg_max_pages args)
                (arg_delay args) (arg_timeout args) (arg_include_subdomains args)
                (arg_respect_robots args) DEFAULT_USER_AGENT = Ok (crawler, t))
       /\ (conn_closed conn = false -> conn_db conn = file /\ st <> Done)
       /\ (forall url, is_Some (pages file !! url) ->
                       is_Some (pages (conn_db conn) !! url)).
Proof.
  unfold main.
  destruct (SiteCrawler_init W tick0 (arg_url args) (arg_max_pages args)
              (arg_delay args) (arg_timeout args) (arg_include_subdomains args)
              (arg_respect_robots args) DEFAULT_USER_AGENT)
    as [[crawler t]|e] eqn:Hinit.
  - split.
    + destruct (crawl_loop_terminates W crawler (initial_state crawler file t))
        as [fuel Hfuel].
      exists fuel. fold (crawl W crawler file t fuel) in Hfuel.
      by destruct (crawl W crawler file t fuel) as [[| |?] ?].
    + intros fuel.
      pose proof (db_pages_crawl W crawler file t fuel) as Hpages.
      destruct (crawl W crawler file t fuel) as [[| |e] s'] eqn:Hrun; simpl;
        intros Hended; try done.
      * split; [by split; [eexists _, _|]|]. split; [done|].
        intros url. apply Hpages.
      * split; [by split; [eexists _, _|]|]. split; [done|].
        intros url. apply Hpages.
  - split; [by exists 0%nat|]. intros fuel. simpl. intros _.
    split; [|by split]. split; [done|]. by intros (? & ? & ?).
Qed.

End EndingsFurther.

(** ** The further properties on the sample site *)

(** Over robots.txt of the polite site the PDF under /files is found on the
    home page and never fetched. *)
Example polite_crawl_skips_files :
  exists self t,
    SiteCrawler_init Sample.polite 0 "https://example.com/" 10 (Finite 0) (Finite (Qc_of_Z 10))
      false true "SiteCrawler" = Ok (self, t)
    /\ (crawl Sample.polite self Sample.earlier_db t 10).1 = Done
    /\ fetched (crawl Sample.polite self Sample.earlier_db t 10).2
       = ["https://example.com"; "https://example.com/about";
          "https://example.com/"; "https://example.com/contact"].
Proof. eexists _, _. split; [vm_compute; reflexivity|]. by vm_compute. Qed.

Lemma upsert_page_last_write_wins_witness :
  exists db1 db2,
    upsert_page (Sample.world Sample.no_faults) Sample.earlier_db 0
      "https://example.com" None None None None = Ok db1
    /\ upsert_page (Sample.world Sample.no_faults) db1 1
         "https://example.com" (Some 200) (Some "text/html") None None = Ok db2
    /\ size (pages db2) = size (pages db1).
Proof.
  eexists _, _. split; [reflexivity|]. split; [reflexivity|].
  eapply (upsert_page_last_write_wins (Sample.world Sample.no_faults)
            Sample.earlier_db 0 1 "https://example.com"); reflexivity.
Defined.


Lemma subdomains_widen_scope_witness :
  allowed_url (Sample.world Sample.no_faults) (Sample.crawler 10 false)
    "https://example.com/about" = Ok true
  /\ allowed_url (Sample.world Sample.no_faults) (Sample.crawler 10 true)
       "https://example.com/about" = Ok true.
Proof.
  split; [vm_compute; reflexivity|].
  apply (subdomains_widen_scope (Sample.world Sample.no_faults)
           (Sample.crawler 10 false) (Sample.crawler 10 true));
    reflexivity.
Defined.

Lemma SiteCrawler_init_sets_witness :
  exists self t,
    Sample.crawler_with_robots = Ok (self, t)
    /\ endswith (base_url self) "/" = false
    /\ t = 1%nat.
Proof.
  eexists _, _. split; [vm_compute; reflexivity|].
  match goal with
  | |- endswith (base_url ?c) _ = _ /\ ?t = _ =>
      destruct (SiteCrawler_init_sets (Sample.world Sample.no_faults) 0
                  "https://example.com/" 10 (Finite 0) (Finite (Qc_of_Z 10)) false true
                  "SiteCrawler" c t)
        as (_ & Hslash & _ & _ & Htick & _); [vm_compute; reflexivity|]
  end.
  split; [exact Hslash | exact Htick].
Defined.

Lemma crawl_obeys_robots_witness :
  exists self t,
    SiteCrawler_init Sample.polite 0 "https://example.com/" 10 (Finite 0) (Finite (Qc_of_Z 10))
      false true "SiteCrawler" = Ok (self, t)
    /\ Forall (fun u => rules_can_fetch Sample.polite Sample.robots_txt
                          "SiteCrawler" u = Some true)
              (fetched (crawl Sample.polite self Sample.earlier_db t 10).2).
Proof.
  eexists _, _. split; [vm_compute; reflexivity|].
  apply (crawl_obeys_robots Sample.polite 0 "https://example.com/" 10 (Finite 0)
           (Finite (Qc_of_Z 10)) false "SiteCrawler" _ _ "https://example.com/robots.txt"
           {| resp_status_code := 200; resp_content_type := Some "text/plain";
              resp_text := Sample.robots_txt |});
    vm_compute; reflexivity.
Defined.

Lemma crawl_keeps_other_pages_witness :
  let run := crawl (Sample.world Sample.no_faults) (Sample.crawler 2 false)
               Sample.earlier_db 0 10 in
  "https://example.com/contact" ∉ fetched run.2
  /\ pages (db run.2) !! "https://example.com/contact"
     = pages Sample.earlier_db !! "https://example.com/contact".
Proof.
  intros run.
  assert (Hnot : "https://example.com/contact" ∉ fetched run.2).
  { assert (Hdec : bool_decide ("https://example.com/contact" ∈ fetched run.2)
                   = false) by (vm_compute; reflexivity).
    by apply bool_decide_eq_false in Hdec. }
  split; [exact Hnot|].
  apply (crawl_keeps_other_pages (Sample.world Sample.no_faults)
           (Sample.crawler 2 false) Sample.earlier_db 0 10).
  exact Hnot.
Defined.

Lemma crawl_keeps_foreign_keys_witness :
  foreign_keys_hold Sample.earlier_db
  /\ foreign_keys_hold
       (db (crawl (Sample.world Sample.no_faults) (Sample.crawler 10 false)
              Sample.earlier_db 0 10).2).
Proof.
  assert (Hkeys : foreign_keys_hold Sample.earlier_db) by constructor.
  split; [exact Hkeys|].
  apply (crawl_keeps_foreign_keys (Sample.world Sample.no_faults)
           (Sample.crawler 10 false) Sample.earlier_db 0 10).
  exact Hkeys.
Defined.

Lemma crawl_records_every_fetch_witness :
  let run := crawl (Sample.world Sample.no_faults) (Sample.crawler 10 false)
               Database_fresh 0 10 in
  run.1 = Raised Sqlite3Error
  /\ page_records (emitted run.2) = fetched run.2.
Proof.
  intros run.
  assert (Hst : run.1 = Raised Sqlite3Error) by (vm_compute; reflexivity).
  split; [exact Hst|].
  apply (proj2 (crawl_records_every_fetch (Sample.world Sample.no_faults)
                  (Sample.crawler 10 false) Database_fresh 0 10)).
  right. right. exact Hst.
Defined.

Lemma crawl_stores_every_fetch_witness :
  let W := Sample.world Sample.no_faults in
  let run := crawl W (Sample.crawler 10 false) Sample.earlier_db 0 10 in
  run.1 = Done
  /\ fetched run.2 !! 1%nat = Some "https://example.com/about"
  /\ exists sc ct ti tx i,
       emitted run.2 !! i
       = Some (UpsertPage "https://example.com/about" sc ct ti tx, true)
       /\ pages (db run.2) !! "https://example.com/about"
          = Some {| row_url := "https://example.com/about"; row_status_code := sc;
                    row_content_type := ct; row_title := ti;
                    row_text_content := tx;
                    row_fetched_at := utcnow W (0 + 2 + i) |}.
Proof.
  intros W run.
  assert (Hdone : run.1 = Done) by (vm_compute; reflexivity).
  assert (Hk : fetched run.2 !! 1%nat = Some "https://example.com/about")
    by (vm_compute; reflexivity).
  split; [exact Hdone|]. split; [exact Hk|].
  apply (proj2 (crawl_stores_every_fetch W (Sample.crawler 10 false)
                  Sample.earlier_db 0 10 1 "https://example.com/about" Hdone Hk)).
Defined.

Lemma crawl_stops_at_the_budget_witness :
  let run := crawl (Sample.world Sample.no_faults) (Sample.crawler 2 false)
               Sample.earlier_db 0 10 in
  run.1 = Done /\ queue run.2 <> []
  /\ Z.of_nat (length (fetched run.2)) = Z.max 0 2.
Proof.
  intros run.
  assert (Hdone : run.1 = Done) by (vm_compute; reflexivity).
  assert (Hleft : queue run.2 <> []) by (vm_compute; discriminate).
  split; [exact Hdone|]. split; [exact Hleft|].
  apply (crawl_stops_at_the_budget (Sample.world Sample.no_faults)
           (Sample.crawler 2 false) Sample.earlier_db 0 10 Hdone Hleft).
Defined.

Lemma main_closes_the_database_witness :
  let malformed := main (Sample.world Sample.no_faults)
                     (Sample.args "http://[" 10 false) Sample.earlier_db 0 0 in
  let crawled := main (Sample.world Sample.no_faults)
                   (Sample.args "https://example.com/" 2 false)
                   Sample.earlier_db 0 10 in
  malformed.1 = Raised ValueError
  /\ conn_closed malformed.2 = false
  /\ conn_db malformed.2 = Sample.earlier_db
  /\ crawled.1 = Done
  /\ conn_closed crawled.2 = true.
Proof.
  intros malformed crawled.
  assert (Hopen : conn_closed malformed.2 = false) by (vm_compute; reflexivity).
  split; [vm_compute; reflexivity|]. split; [exact Hopen|]. split.
  - apply (proj2 (main_closes_the_database (Sample.world Sample.no_faults)
                    (Sample.args "http://[" 10 false) Sample.earlier_db 0) 0%nat);
      [vm_compute; discriminate | exact Hopen].
  - split; vm_compute; reflexivity.
Defined.
